(** * Stateful model instance: special inputs, state hand-over and the
      locking protocol of [StatefulModelInstance::infer]

    Shallow embedding of [src/statefulmodelinstance.cpp].  Unsigned
    integers of the wire format ([uint64_t] sequence ids, [uint32_t]
    control inputs) are values of [N]; no arithmetic is performed on them
    by the code embedded here, so no wrap-around has to be written out.
    Protobuf maps and the sequence table are [gmap]s.  [infer] is a
    chain of steps over an explicit frame that records the mutex and
    handle events; timers, metrics and log lines are left out.
    [infer_among] is the same chain run among other threads: it differs
    at the one point where [infer] takes the manager's mutex a second
    time and finds the table as those threads left it.  What the file
    needs of [Sequence] and [SequenceManager], whose sources are not at
    hand, is modelled from the specification and marked so. *)

From stdpp Require Import gmap strings list fin_maps pretty sorting.
From Stdlib Require Import NArith ZArith Lia Ascii.

Local Open Scope string_scope.
Local Open Scope N_scope.
Local Open Scope list_scope.

(** ** Status codes *)

(** The members of [StatusCode] that the embedded functions return;
    [OTHER_ERROR] stands for the codes only the collaborators return. *)
Inductive StatusCode : Type :=
  | OK
  | SPECIAL_INPUT_NO_TENSOR_SHAPE
  | INVALID_NO_OF_SHAPE_DIMENSIONS
  | INVALID_SHAPE
  | SEQUENCE_ID_BAD_TYPE
  | SEQUENCE_CONTROL_INPUT_BAD_TYPE
  | INVALID_SEQUENCE_CONTROL_INPUT
  | SEQUENCE_ID_NOT_PROVIDED
  | SEQUENCE_MISSING
  | SEQUENCE_ALREADY_EXISTS
  | MAX_SEQUENCES_REACHED
  | INTERNAL_ERROR
  | OTHER_ERROR (n : nat).

Global Instance StatusCode_eq_dec : EqDecision StatusCode.
Proof. solve_decision. Defined.

(** [Status]: a code with an optional detail message ([Status(code)] and
    [Status(code, details)] in the source). *)
Record Status : Type := mkStatus {
  getCode : StatusCode;
  getDetails : option string
}.

Coercion status_of_code (c : StatusCode) : Status := mkStatus c None.

Definition ok (s : Status) : bool := bool_decide (getCode s = OK).

(** ** Wire data *)

Inductive DataType : Type :=
  | DT_INVALID | DT_FLOAT | DT_INT32 | DT_INT64 | DT_UINT32 | DT_UINT64.

(** The fields of [tensorflow::TensorProto] the code reads or writes.
    [tensor_shape] is the list of dimension sizes ([dim_size()] is its
    length, [dim(0).size()] its head); a proto without shape information
    has the empty list.  The repeated typed value fields are lists;
    [float_val] stands for the fields of the other element types, its
    entries opaque. *)
Record TensorProto : Type := mkTensorProto {
  dtype : DataType;
  tensor_shape : list Z;
  float_val : list Z;
  uint32_val : list N;
  uint64_val : list N
}.

(** A default-constructed proto, as [operator[]] of a protobuf map makes. *)
Definition TensorProto_default : TensorProto :=
  mkTensorProto DT_INVALID [] [] [] [].

Record PredictRequest : Type := mkPredictRequest {
  inputs : gmap string TensorProto
}.

Record PredictResponse : Type := mkPredictResponse {
  outputs : gmap string TensorProto
}.

(** ** Sequence processing spec *)

(** Modelled from the spec: the three control constants of
    [sequence_processing_spec.hpp], which is not among the sources; the
    wire values are 1 (START), 0 (CONTINUE, no control input), 2 (END). *)
Definition NO_CONTROL_INPUT : N := 0.
Definition SEQUENCE_START : N := 1.
Definition SEQUENCE_END : N := 2.

Record SequenceProcessingSpec : Type := mkSpec {
  getSequenceControlInput : N;
  getSequenceId : N
}.

Definition setSequenceId (id : N) (s : SequenceProcessingSpec) :=
  mkSpec (getSequenceControlInput s) id.
Definition setSequenceControlInput (c : N) (s : SequenceProcessingSpec) :=
  mkSpec c (getSequenceId s).

(** The value of a default-constructed spec; [infer] reads the spec only
    after [validate] has set both fields. *)
Definition SequenceProcessingSpec_default : SequenceProcessingSpec :=
  mkSpec 0 0.

(** ** Extraction of the special inputs *)

Definition SPECIAL_INPUT_NAMES : gset string :=
  {[ "sequence_id"; "sequence_control_input" ]}.

(** [extractSequenceId proto sequenceId]: the second component is the
    reference parameter [sequenceId] after the call. *)
Definition extractSequenceId (proto : TensorProto) (sequenceId : N)
  : Status * N :=
  if bool_decide (length (tensor_shape proto) = 0%nat) then
    (status_of_code SPECIAL_INPUT_NO_TENSOR_SHAPE, sequenceId)
  else if bool_decide (length (tensor_shape proto) ≠ 1%nat) then
    (mkStatus INVALID_NO_OF_SHAPE_DIMENSIONS
       (Some "Required shape for sequence_id is: (1)"), sequenceId)
  else if bool_decide (tensor_shape proto !! 0%nat ≠ Some 1%Z) then
    (mkStatus INVALID_SHAPE
       (Some "Required shape for sequence_id is: (1)"), sequenceId)
  else
    match uint64_val proto with
    | [v] => (status_of_code OK, v)
    | _ => (status_of_code SEQUENCE_ID_BAD_TYPE, sequenceId)
    end.

Definition extractSequenceControlInput (proto : TensorProto)
  (sequenceControlInput : N) : Status * N :=
  if bool_decide (length (tensor_shape proto) = 0%nat) then
    (status_of_code SPECIAL_INPUT_NO_TENSOR_SHAPE, sequenceControlInput)
  else if bool_decide (length (tensor_shape proto) ≠ 1%nat) then
    (mkStatus INVALID_NO_OF_SHAPE_DIMENSIONS
       (Some "Required shape for sequence_control_input is: (1)"),
     sequenceControlInput)
  else if bool_decide (tensor_shape proto !! 0%nat ≠ Some 1%Z) then
    (mkStatus INVALID_SHAPE
       (Some "Required shape for sequence_control_input is: (1)"),
     sequenceControlInput)
  else
    match uint32_val proto with
    | [v] => (status_of_code OK, v)
    | _ => (status_of_code SEQUENCE_CONTROL_INPUT_BAD_TYPE,
            sequenceControlInput)
    end.

(** [validateSpecialKeys request spec]: the second component is the
    spec after the call; it is written only on the successful path. *)
Definition validateSpecialKeys (request : PredictRequest)
  (sequenceProcessingSpec : SequenceProcessingSpec)
  : Status * SequenceProcessingSpec :=
  let sequenceId := 0 in
  let sequenceControlInput := 0 in
  let '(status, sequenceId) :=
    match inputs request !! "sequence_id" with
    | Some proto => extractSequenceId proto sequenceId
    | None => (status_of_code OK, sequenceId)
    end in
  if negb (ok status) then (status, sequenceProcessingSpec) else
  let '(status, sequenceControlInput) :=
    match inputs request !! "sequence_control_input" with
    | Some proto => extractSequenceControlInput proto sequenceControlInput
    | None => (status_of_code OK, sequenceControlInput)
    end in
  if negb (ok status) then (status, sequenceProcessingSpec) else
  if bool_decide (sequenceControlInput ≠ SEQUENCE_END)
     && bool_decide (sequenceControlInput ≠ NO_CONTROL_INPUT)
     && bool_decide (sequenceControlInput ≠ SEQUENCE_START)
  then (status_of_code INVALID_SEQUENCE_CONTROL_INPUT, sequenceProcessingSpec)
  else if (bool_decide (sequenceControlInput = SEQUENCE_END)
           || bool_decide (sequenceControlInput = NO_CONTROL_INPUT))
          && bool_decide (sequenceId = 0)
  then (status_of_code SEQUENCE_ID_NOT_PROVIDED, sequenceProcessingSpec)
  else
    (status_of_code OK,
     setSequenceControlInput sequenceControlInput
       (setSequenceId sequenceId sequenceProcessingSpec)).

(** ** The inference handle and its state slots *)

(** An opaque tensor payload. *)
Abbreviation Tensor := (list Z).

(** One [ov::VariableState] of a handle: its name, its current payload
    and the payload [reset()] restores (the model's default). *)
Record VariableState : Type := mkVariableState {
  get_name : string;
  get_state : Tensor;
  default_state : Tensor
}.

Definition reset (s : VariableState) : VariableState :=
  mkVariableState (get_name s) (default_state s) (default_state s).

Definition set_state (t : Tensor) (s : VariableState) : VariableState :=
  mkVariableState (get_name s) t (default_state s).

(** An [ov::InferRequest]: the state slots [query_state()] enumerates and
    the named input and output tensors (only the external steps touch
    the latter). *)
Record InferRequest : Type := mkInferRequest {
  query_state : list VariableState;
  tensors : gmap string Tensor
}.

Definition with_states (l : list VariableState) (r : InferRequest) :=
  mkInferRequest l (tensors r).

(** ** Sequence and sequence manager *)

(** Modelled from the spec: [Sequence] ([sequence.cpp] is not among the
    sources) owns one memory state map plus the idle flag the reaper
    uses.  Its mutex is modelled by the lock events of [infer]. *)
Record Sequence : Type := mkSequence {
  getMemoryState : gmap string Tensor;
  isIdle : bool
}.

(** Modelled from the spec: [Sequence::updateMemoryState] replaces the
    memory state map wholesale with the supplied (name, payload) pairs;
    a previously present key not in the new list is dropped. *)
Definition updateMemoryState (newState : list VariableState)
  (s : Sequence) : Sequence :=
  mkSequence
    (list_to_map ((λ v, (get_name v, get_state v)) <$> newState))
    (isIdle s).

Definition setIdle (b : bool) (s : Sequence) : Sequence :=
  mkSequence (getMemoryState s) b.

(** Modelled from the spec: [SequenceManager] ([sequence_manager.cpp] is
    not among the sources) owns the table from sequence id to Sequence
    and the population bound. *)
Record SequenceManager : Type := mkSequenceManager {
  sequences : gmap N Sequence;
  maxSequenceNumber : nat
}.

Definition with_sequences (m : gmap N Sequence) (mgr : SequenceManager) :=
  mkSequenceManager m (maxSequenceNumber mgr).

(** Modelled from the spec: sequence-exists and get-sequence are lookups
    under the manager lock; get-sequence is the table's entry at an id
    that is there ([infer] asks [sequenceExists] first). *)
Definition sequenceExists (id : N) (mgr : SequenceManager) : bool :=
  bool_decide (is_Some (sequences mgr !! id)).

Global Instance Sequence_inhabited : Inhabited Sequence :=
  populate (mkSequence ∅ false).

Definition getSequence (id : N) (mgr : SequenceManager) : Sequence :=
  sequences mgr !!! id.

(** Modelled from the spec: remove-sequence deletes the entry; removing
    an id that is not there reports [SEQUENCE_MISSING]. *)
Definition removeSequence (id : N) (mgr : SequenceManager)
  : Status * SequenceManager :=
  match sequences mgr !! id with
  | Some _ => (status_of_code OK, with_sequences (delete id (sequences mgr)) mgr)
  | None => (status_of_code SEQUENCE_MISSING, mgr)
  end.

(** Modelled from the spec: id generation on START with id 0 scans for an
    unused id, here 1, 2, 3, ... in turn.  The scan is given as many steps
    as the table has entries, after which the candidate reached is free. *)
Fixpoint scanUnusedId (used : gmap N Sequence) (fuel : nat) (candidate : N)
  : N :=
  match fuel with
  | O => candidate
  | S fuel' =>
      if bool_decide (is_Some (used !! candidate))
      then scanUnusedId used fuel' (N.succ candidate)
      else candidate
  end.

Definition getUniqueSequenceId (mgr : SequenceManager) : N :=
  scanUnusedId (sequences mgr) (size (sequences mgr)) 1.

(** A newly created Sequence: no saved state, not idle. *)
Definition Sequence_new : Sequence := mkSequence ∅ false.

(** Modelled from the spec: the table of process-requested-spec (4.C).
    The second component is the spec after the call (the generated id
    is written back into it). *)
Definition processRequestedSpec (spec : SequenceProcessingSpec)
  (mgr : SequenceManager) : Status * SequenceProcessingSpec * SequenceManager :=
  let control := getSequenceControlInput spec in
  let id := getSequenceId spec in
  if bool_decide (control = SEQUENCE_START) then
    if bool_decide (id = 0) then
      if bool_decide (maxSequenceNumber mgr ≤ size (sequences mgr))%nat then
        (status_of_code MAX_SEQUENCES_REACHED, spec, mgr)
      else
        let fresh := getUniqueSequenceId mgr in
        (status_of_code OK, setSequenceId fresh spec,
         with_sequences (<[fresh := Sequence_new]> (sequences mgr)) mgr)
    else if sequenceExists id mgr then
      (status_of_code SEQUENCE_ALREADY_EXISTS, spec, mgr)
    else if bool_decide (maxSequenceNumber mgr ≤ size (sequences mgr))%nat then
      (status_of_code MAX_SEQUENCES_REACHED, spec, mgr)
    else
      (status_of_code OK, spec,
       with_sequences (<[id := Sequence_new]> (sequences mgr)) mgr)
  else
    if bool_decide (id = 0) then
      (status_of_code SEQUENCE_ID_NOT_PROVIDED, spec, mgr)
    else if sequenceExists id mgr then (status_of_code OK, spec, mgr)
    else (status_of_code SEQUENCE_MISSING, spec, mgr).

(** Modelled from the spec: one sweep of the reaper (4.D) removes every
    Sequence whose idle flag is set, then sets the flag on the rest. *)
Definition removeIdleSequences (mgr : SequenceManager) : SequenceManager :=
  with_sequences
    (setIdle true <$> filter (λ kv, isIdle kv.2 = false) (sequences mgr)) mgr.

(** ** Pre- and post-inference processing *)

(** The loop of the CONTINUE/END branch: slots are restored in the order
    [query_state()] yields them; the first name that the saved map lacks
    ends the call with [INTERNAL_ERROR], the slots before it already set. *)
Fixpoint restoreStates (saved : gmap string Tensor) (l : list VariableState)
  : Status * list VariableState :=
  match l with
  | [] => (status_of_code OK, [])
  | state :: rest =>
      match saved !! get_name state with
      | None => (status_of_code INTERNAL_ERROR, state :: rest)
      | Some t =>
          let '(status, rest') := restoreStates saved rest in
          (status, set_state t state :: rest')
      end
  end.

Definition preInferenceProcessing (inferRequest : InferRequest)
  (sequence : Sequence) (spec : SequenceProcessingSpec)
  : Status * InferRequest :=
  if bool_decide (getSequenceControlInput spec = SEQUENCE_START) then
    (status_of_code OK,
     with_states (reset <$> query_state inferRequest) inferRequest)
  else
    let '(status, l) :=
      restoreStates (getMemoryState sequence) (query_state inferRequest) in
    (status, with_states l inferRequest).

(** Indexing the response's mutable output map at the name sequence_id
    finds the entry or makes a default one; a dimension, the dtype and a
    value are then added to whatever the entry holds. *)
Definition add_sequence_id (id : N) (p : TensorProto) : TensorProto :=
  mkTensorProto DT_UINT64 (tensor_shape p ++ [1%Z]) (float_val p)
    (uint32_val p) (uint64_val p ++ [id]).

Definition postInferenceProcessing (response : PredictResponse)
  (inferRequest : InferRequest) (sequence : Sequence)
  (spec : SequenceProcessingSpec)
  : Status * PredictResponse * InferRequest * Sequence :=
  let '(inferRequest, sequence) :=
    if bool_decide (getSequenceControlInput spec = SEQUENCE_END) then
      (with_states (reset <$> query_state inferRequest) inferRequest, sequence)
    else
      (inferRequest, updateMemoryState (query_state inferRequest) sequence) in
  let tensorProto :=
    default TensorProto_default (outputs response !! "sequence_id") in
  (status_of_code OK,
   mkPredictResponse
     (<["sequence_id" := add_sequence_id (getSequenceId spec) tensorProto]>
        (outputs response)),
   inferRequest, sequence).

(** ** The request pipeline *)

(** The collaborators [infer] calls that live outside this file: generic
    request validation against the model's inputs, deserialization into
    the handle, the inference step and serialization of the outputs.
    They are fields of the model instance and arbitrary in every theorem. *)
Record ModelInstance : Type := mkModelInstance {
  validateRequest : PredictRequest → Status;
  deserializePredictRequest : PredictRequest → InferRequest → Status * InferRequest;
  performInference : InferRequest → Status * InferRequest;
  serializePredictResponse : InferRequest → PredictResponse → Status * PredictResponse
}.

Definition validate (mi : ModelInstance) (request : PredictRequest)
  (sequenceProcessingSpec : SequenceProcessingSpec)
  : Status * SequenceProcessingSpec :=
  let '(status, spec) := validateSpecialKeys request sequenceProcessingSpec in
  if negb (ok status) then (status, spec)
  else (validateRequest mi request, spec).

(** What [infer] does to the two mutexes and to the handle pool.  The
    release of the manager's mutex carries the manager as it is at that
    moment: the state other threads (the reaper, other requests) find. *)
Inductive Event : Type :=
  | MgrLock
  | MgrUnlock (published : SequenceManager)
  | SeqLock (id : N)
  | SeqUnlock (id : N)
  | HandleAcquire
  | HandleRelease.

(** The objects [infer] works on and its scoped locals: whether
    [sequenceManagerLock] and [sequenceLock] own their mutex, whether the
    [ExecutingStreamIdGuard] exists, and the events so far. *)
Record Frame : Type := mkFrame {
  sequenceManager : SequenceManager;
  inferRequest : InferRequest;
  responseProto : PredictResponse;
  sequenceProcessingSpec : SequenceProcessingSpec;
  sequenceManagerLock : bool;
  sequenceLock : option N;
  executingStreamIdGuard : bool;
  trace : list Event
}.

Definition set_manager (m : SequenceManager) (f : Frame) : Frame :=
  mkFrame m (inferRequest f) (responseProto f) (sequenceProcessingSpec f)
    (sequenceManagerLock f) (sequenceLock f) (executingStreamIdGuard f) (trace f).
Definition set_inferRequest (r : InferRequest) (f : Frame) : Frame :=
  mkFrame (sequenceManager f) r (responseProto f) (sequenceProcessingSpec f)
    (sequenceManagerLock f) (sequenceLock f) (executingStreamIdGuard f) (trace f).
Definition set_response (r : PredictResponse) (f : Frame) : Frame :=
  mkFrame (sequenceManager f) (inferRequest f) r (sequenceProcessingSpec f)
    (sequenceManagerLock f) (sequenceLock f) (executingStreamIdGuard f) (trace f).
Definition set_spec (s : SequenceProcessingSpec) (f : Frame) : Frame :=
  mkFrame (sequenceManager f) (inferRequest f) (responseProto f) s
    (sequenceManagerLock f) (sequenceLock f) (executingStreamIdGuard f) (trace f).
Definition set_managerLock (b : bool) (f : Frame) : Frame :=
  mkFrame (sequenceManager f) (inferRequest f) (responseProto f)
    (sequenceProcessingSpec f) b (sequenceLock f) (executingStreamIdGuard f) (trace f).
Definition set_sequenceLock (o : option N) (f : Frame) : Frame :=
  mkFrame (sequenceManager f) (inferRequest f) (responseProto f)
    (sequenceProcessingSpec f) (sequenceManagerLock f) o (executingStreamIdGuard f) (trace f).
Definition set_guard (b : bool) (f : Frame) : Frame :=
  mkFrame (sequenceManager f) (inferRequest f) (responseProto f)
    (sequenceProcessingSpec f) (sequenceManagerLock f) (sequenceLock f) b (trace f).
Definition log (e : Event) (f : Frame) : Frame :=
  mkFrame (sequenceManager f) (inferRequest f) (responseProto f)
    (sequenceProcessingSpec f) (sequenceManagerLock f) (sequenceLock f)
    (executingStreamIdGuard f) (trace f ++ [e]).

(** A statement of [infer] that yields a status; [a >>> b] runs [b] only
    when [a] was ok, which is the source's [if (!status.ok()) return status]. *)
Definition Step : Type := Frame → Status * Frame.

Definition andThen (a b : Step) : Step :=
  λ f, let '(status, f') := a f in if ok status then b f' else (status, f').

Notation "a >>> b" := (andThen a b) (at level 90, right associativity).

(** What the reference [Sequence& sequence] bound after the lookup
    denotes at any later point: the table's entry at the id. *)
Definition sequenceRef (f : Frame) : Sequence :=
  getSequence (getSequenceId (sequenceProcessingSpec f)) (sequenceManager f).

Definition validateStep (mi : ModelInstance) (request : PredictRequest) : Step :=
  λ f, let '(status, spec) := validate mi request (sequenceProcessingSpec f) in
       (status, set_spec spec f).

Definition lockManager : Step :=
  λ f, (status_of_code OK, log MgrLock (set_managerLock true f)).

Definition processSpecStep : Step :=
  λ f, let '(status, spec, mgr) :=
         processRequestedSpec (sequenceProcessingSpec f) (sequenceManager f) in
       (status, set_spec spec (set_manager mgr f)).

Definition lookupSequence : Step :=
  λ f, if negb (sequenceExists (getSequenceId (sequenceProcessingSpec f))
                  (sequenceManager f))
       then (status_of_code INTERNAL_ERROR, f)
       else (status_of_code OK, f).

Definition lockSequence : Step :=
  λ f, let id := getSequenceId (sequenceProcessingSpec f) in
       (status_of_code OK, log (SeqLock id) (set_sequenceLock (Some id) f)).

Definition unlockManager : Step :=
  λ f, (status_of_code OK,
        log (MgrUnlock (sequenceManager f)) (set_managerLock false f)).

Definition acquireHandle : Step :=
  λ f, (status_of_code OK, log HandleAcquire (set_guard true f)).

Definition preInferenceStep : Step :=
  λ f, let '(status, r) :=
         preInferenceProcessing (inferRequest f) (sequenceRef f)
           (sequenceProcessingSpec f) in
       (status, set_inferRequest r f).

Definition deserializeStep (mi : ModelInstance) (request : PredictRequest) : Step :=
  λ f, let '(status, r) := deserializePredictRequest mi request (inferRequest f) in
       (status, set_inferRequest r f).

Definition inferenceStep (mi : ModelInstance) : Step :=
  λ f, let '(status, r) := performInference mi (inferRequest f) in
       (status, set_inferRequest r f).

Definition serializeStep (mi : ModelInstance) : Step :=
  λ f, let '(status, resp) :=
         serializePredictResponse mi (inferRequest f) (responseProto f) in
       (status, set_response resp f).

Definition postInferenceStep : Step :=
  λ f, let '(status, resp, r, s) :=
         postInferenceProcessing (responseProto f) (inferRequest f)
           (sequenceRef f) (sequenceProcessingSpec f) in
       let mgr := sequenceManager f in
       (status,
        set_manager
          (with_sequences
             (<[getSequenceId (sequenceProcessingSpec f) := s]> (sequences mgr)) mgr)
          (set_inferRequest r (set_response resp f))).

Definition unlockSequence : Step :=
  λ f, (status_of_code OK,
        log (SeqUnlock (getSequenceId (sequenceProcessingSpec f)))
          (set_sequenceLock None f)).

Definition removeOnEnd : Step :=
  λ f, if bool_decide (getSequenceControlInput (sequenceProcessingSpec f) = SEQUENCE_END)
       then
         let f := log MgrLock (set_managerLock true f) in
         let '(status, mgr) :=
           removeSequence (getSequenceId (sequenceProcessingSpec f))
             (sequenceManager f) in
         (status, set_manager mgr f)
       else (status_of_code OK, f).

(** The body of [infer], statement by statement. *)
Definition infer_body (mi : ModelInstance) (request : PredictRequest) : Step :=
  validateStep mi request >>>
  lockManager >>>
  processSpecStep >>>
  lookupSequence >>>
  lockSequence >>>
  unlockManager >>>
  acquireHandle >>>
  preInferenceStep >>>
  deserializeStep mi request >>>
  inferenceStep mi >>>
  serializeStep mi >>>
  postInferenceStep >>>
  unlockSequence >>>
  removeOnEnd.

(** Leaving [infer] on any path destroys the scoped locals in the reverse
    order of their construction: the handle guard, [sequenceLock], then
    [sequenceManagerLock]; a lock object unlocks only a mutex it owns. *)
Definition unwind (f : Frame) : Frame :=
  let f := if executingStreamIdGuard f
           then log HandleRelease (set_guard false f) else f in
  let f := match sequenceLock f with
           | Some id => log (SeqUnlock id) (set_sequenceLock None f)
           | None => f
           end in
  if sequenceManagerLock f
  then log (MgrUnlock (sequenceManager f)) (set_managerLock false f)
  else f.

(** The frame on entry: nothing locked, no handle, a fresh spec. *)
Definition enter (mgr : SequenceManager) (handle : InferRequest)
  (response : PredictResponse) : Frame :=
  mkFrame mgr handle response SequenceProcessingSpec_default false None false [].

(** [infer mi request response mgr handle]: [mgr] is the model's sequence
    manager and [handle] the inference handle the pool hands out. *)
Definition infer (mi : ModelInstance) (request : PredictRequest)
  (response : PredictResponse) (mgr : SequenceManager) (handle : InferRequest)
  : Status * Frame :=
  let '(status, f) := infer_body mi request (enter mgr handle response) in
  (status, unwind f).

(** ** [infer] among other threads

    [infer] above is the run of one thread on its own.  Between its
    release of the Sequence's mutex and the moment it holds the manager's
    mutex again for the removal on END, the thread holds nothing, and the
    table it then finds is what the other threads (the reaper, requests
    on this or on other sequences) have made of it meanwhile: [others m]
    for the table [m] this thread left.  While the thread holds the
    Sequence's mutex the entry of that Sequence is taken to stay in the
    table, as the reference [sequence] of the source requires. *)
Definition removeOnEnd_among (others : SequenceManager → SequenceManager) : Step :=
  λ f, if bool_decide (getSequenceControlInput (sequenceProcessingSpec f) = SEQUENCE_END)
       then
         let f := log MgrLock
                    (set_managerLock true
                       (set_manager (others (sequenceManager f)) f)) in
         let '(status, mgr) :=
           removeSequence (getSequenceId (sequenceProcessingSpec f))
             (sequenceManager f) in
         (status, set_manager mgr f)
       else (status_of_code OK, f).

Definition infer_body_among (others : SequenceManager → SequenceManager)
  (mi : ModelInstance) (request : PredictRequest) : Step :=
  validateStep mi request >>>
  lockManager >>>
  processSpecStep >>>
  lookupSequence >>>
  lockSequence >>>
  unlockManager >>>
  acquireHandle >>>
  preInferenceStep >>>
  deserializeStep mi request >>>
  inferenceStep mi >>>
  serializeStep mi >>>
  postInferenceStep >>>
  unlockSequence >>>
  removeOnEnd_among others.

Definition infer_among (others : SequenceManager → SequenceManager)
  (mi : ModelInstance) (request : PredictRequest)
  (response : PredictResponse) (mgr : SequenceManager) (handle : InferRequest)
  : Status * Frame :=
  let '(status, f) :=
    infer_body_among others mi request (enter mgr handle response) in
  (status, unwind f).

(** Another request has ended the sequence [id] meanwhile. *)
Definition ended_by_another (id : N) (m : SequenceManager) : SequenceManager :=
  with_sequences (delete id (sequences m)) m.

(** ** Reading a trace *)

(** The mutexes the thread holds. *)
Record Held : Type := mkHeld {
  heldManager : bool;
  heldSequence : option N
}.

Definition nothingHeld : Held := mkHeld false None.

(** One event against the lock hierarchy (manager before Sequence): the
    manager's mutex is taken only by a thread that holds neither mutex, a
    Sequence's mutex only by a thread that holds the manager's and no
    Sequence's, and a thread releases only what it holds.  [None] is a
    violation. *)
Definition lockStep (h : Held) (e : Event) : option Held :=
  match e with
  | MgrLock =>
      match heldManager h, heldSequence h with
      | false, None => Some (mkHeld true None)
      | _, _ => None
      end
  | MgrUnlock _ =>
      if heldManager h then Some (mkHeld false (heldSequence h)) else None
  | SeqLock id =>
      match heldManager h, heldSequence h with
      | true, None => Some (mkHeld true (Some id))
      | _, _ => None
      end
  | SeqUnlock id =>
      if bool_decide (heldSequence h = Some id)
      then Some (mkHeld (heldManager h) None) else None
  | HandleAcquire | HandleRelease => Some h
  end.

Fixpoint lockRun (h : Held) (t : list Event) : option Held :=
  match t with
  | [] => Some h
  | e :: t' =>
      match lockStep h e with
      | Some h' => lockRun h' t'
      | None => None
      end
  end.

Definition bothHeld (h : Held) : bool :=
  heldManager h && bool_decide (is_Some (heldSequence h)).

(** The thread took the manager's mutex again after it had released a
    Sequence's: the removal on END was reached. *)
Definition relocks (t : list Event) : Prop :=
  ∃ pre id post, t = pre ++ SeqUnlock id :: MgrLock :: post.

Definition isHandleAcquire (e : Event) : bool :=
  match e with HandleAcquire => true | _ => false end.

Definition isHandleRelease (e : Event) : bool :=
  match e with HandleRelease => true | _ => false end.

(** How many events of a trace satisfy [p]. *)
Definition countEvents (p : Event → bool) (t : list Event) : nat :=
  length (List.filter p t).

(** The value a special input contributes to [validateSpecialKeys]: the
    extracted one when the input is present and well formed, 0 when the
    request has no input of that name. *)
Definition suppliesValue (extract : TensorProto → N → Status * N)
  (input : option TensorProto) (v : N) : Prop :=
  match input with
  | Some proto => extract proto 0 = (status_of_code OK, v)
  | None => v = 0
  end.

(** A well-formed special input holding one value. *)
Definition sequenceIdTensor (id : N) : TensorProto :=
  mkTensorProto DT_UINT64 [1%Z] [] [] [id].
Definition sequenceControlTensor (c : N) : TensorProto :=
  mkTensorProto DT_UINT32 [1%Z] [] [c] [].

Definition with_dtype (d : DataType) (p : TensorProto) : TensorProto :=
  mkTensorProto d (tensor_shape p) (float_val p) (uint32_val p) (uint64_val p).

(** The traces [infer] can leave: rejected before any lock; stopped
    under the manager's mutex; failed between the hand-off and the end of
    post-processing; completed; completed with the removal on END. *)
Inductive TraceShape : list Event → Prop :=
  | shape_rejected : TraceShape []
  | shape_unresolved m : TraceShape [MgrLock; MgrUnlock m]
  | shape_failed id m :
      TraceShape [MgrLock; SeqLock id; MgrUnlock m; HandleAcquire;
                  HandleRelease; SeqUnlock id]
  | shape_completed id m :
      TraceShape [MgrLock; SeqLock id; MgrUnlock m; HandleAcquire;
                  SeqUnlock id; HandleRelease]
  | shape_ended id m m' :
      TraceShape [MgrLock; SeqLock id; MgrUnlock m; HandleAcquire;
                  SeqUnlock id; MgrLock; HandleRelease; MgrUnlock m'].

(** ** Statements and sample data *)

(** The idle flag of Sequence [id] is clear in the manager state that
    some release of the manager's mutex, after the Sequence's mutex was
    taken, makes visible. *)
Definition clears_idle_before_release (t : list Event) (id : N) : Prop :=
  ∃ (pre mid : list Event) (m : SequenceManager) (post : list Event),
    t = pre ++ SeqLock id :: mid ++ MgrUnlock m :: post
    ∧ isIdle <$> sequences m !! id = Some false.

(** The response has an output named sequence_id of shape (1) and type
    unsigned-64 that carries [id]. *)
Definition has_sequence_id_output (response : PredictResponse) (id : N) : Prop :=
  ∃ p, outputs response !! "sequence_id" = Some p
       ∧ tensor_shape p = [1%Z] ∧ dtype p = DT_UINT64 ∧ uint64_val p = [id].

(** A model instance whose collaborators all succeed and change nothing,
    and one whose inference step fails. *)
Definition mi_ok : ModelInstance :=
  mkModelInstance (λ _, status_of_code OK) (λ _ r, (status_of_code OK, r))
    (λ r, (status_of_code OK, r)) (λ _ resp, (status_of_code OK, resp)).

Definition mi_failing_inference : ModelInstance :=
  mkModelInstance (λ _, status_of_code OK) (λ _ r, (status_of_code OK, r))
    (λ r, (status_of_code (OTHER_ERROR 0), r)) (λ _ resp, (status_of_code OK, resp)).

Definition request_of (id c : N) : PredictRequest :=
  mkPredictRequest
    (<["sequence_id" := sequenceIdTensor id]>
       (<["sequence_control_input" := sequenceControlTensor c]> ∅)).

(** Requests that carry only one of the two special inputs. *)
Definition request_without_id (c : N) : PredictRequest :=
  mkPredictRequest {[ "sequence_control_input" := sequenceControlTensor c ]}.

Definition request_without_control (id : N) : PredictRequest :=
  mkPredictRequest {[ "sequence_id" := sequenceIdTensor id ]}.

(** Scenario S5: control 9 with id 1. *)
Definition request_S5 : PredictRequest := request_of 1 9.

(** A model that declares an output named sequence_id: serialization
    writes it into the response. *)
Definition mi_output_named_sequence_id : ModelInstance :=
  mkModelInstance (λ _, status_of_code OK) (λ _ r, (status_of_code OK, r))
    (λ r, (status_of_code OK, r))
    (λ _ resp,
       (status_of_code OK,
        mkPredictResponse
          (<["sequence_id" := mkTensorProto DT_FLOAT [3%Z] [1%Z; 2%Z; 3%Z] [] []]>
             (outputs resp)))).

Definition handle0 : InferRequest :=
  mkInferRequest [mkVariableState "h" [1%Z] [0%Z]] ∅.

(** A handle with two state slots. *)
Definition handle_hc : InferRequest :=
  mkInferRequest
    [mkVariableState "h" [1%Z] [0%Z]; mkVariableState "c" [2%Z] [0%Z]] ∅.

Definition response0 : PredictResponse := mkPredictResponse ∅.

(** A response that already has an output named sequence_id, as after
    serializing a model that declares an output of that name. *)
Definition response_taken : PredictResponse :=
  mkPredictResponse
    {[ "sequence_id" := mkTensorProto DT_FLOAT [3%Z] [1%Z; 2%Z; 3%Z] [] [] ]}.

(** A manager holding the live sequence 42, and the same manager after
    one sweep of the reaper has marked that sequence idle. *)
Definition mgr_live42 : SequenceManager :=
  mkSequenceManager {[ 42 := mkSequence {[ "h" := [5%Z] ]} false ]} 10.

Definition mgr_idle42 : SequenceManager := removeIdleSequences mgr_live42.





(** ** Loading, reloading and retiring *)

(** [loadModel], [reloadModel], [retireModel], [cleanupFailedLoad],
    [loadModelImpl] and [loadOVCompiledModel], as state passing over the
    instance and the log of calls made on the global sequences viewer.
    The loading mutex they all take first is left out. *)

Module Lifecycle.

(** The getters of [ModelConfig] these functions read. *)
Record ModelConfig : Type := mkModelConfig {
  getIdleSequenceCleanup : bool;
  isLowLatencyTransformationUsed : bool;
  getMaxSequenceNumber : nat;
  getName : string;
  getVersion : Z
}.

(** The object [std::make_shared<SequenceManager>(max, name, version)]
    makes: an empty table with the bound, for the named model version. *)
Record SequenceManagerObject : Type := mkSequenceManagerObject {
  managerName : string;
  managerVersion : Z;
  managerTable : SequenceManager
}.

Definition make_SequenceManager (max : nat) (name : string) (version : Z)
  : SequenceManagerObject :=
  mkSequenceManagerObject name version (mkSequenceManager ∅ max).

(** A stateful model instance: the part owned by the base class
    [ModelInstance], kept abstract, and the members of the derived class.
    [sequenceManager] is the shared pointer, [None] after [reset()]. *)
Record Instance (Base : Type) : Type := mkInstance {
  base : Base;
  autoCleanupEnabled : bool;
  performLowLatencyTransformation : bool;
  sequenceManager : option SequenceManagerObject
}.
Arguments mkInstance {Base}.
Arguments base {Base}.
Arguments autoCleanupEnabled {Base}.
Arguments performLowLatencyTransformation {Base}.
Arguments sequenceManager {Base}.

(** The calls made on the global sequences viewer. *)
Inductive ViewerCall : Type :=
  | registerForCleanup (name : string) (version : Z)
      (manager : option SequenceManagerObject)
  | unregisterFromCleanup (name : string) (version : Z).

(** What the functions of this file call and do not define: the methods
    and observers of the base class (a base method may run the virtual
    methods of the instance, so it acts on the whole instance), the
    low-latency transformation (the flag tells whether it threw, the
    instance is as it left it), and the viewer,
    whose answer to a call may depend on the calls made before. *)
Record Environment (Base Param : Type) : Type := mkEnvironment {
  instanceName : Base → string;
  instanceVersion : Base → Z;
  isAvailable : Base → bool;
  base_loadModel : ModelConfig → Instance Base → Status * Instance Base;
  base_reloadModel : ModelConfig → Param → Instance Base → Status * Instance Base;
  base_retireModel : bool → Instance Base → Instance Base;
  base_cleanupFailedLoad : Instance Base → Instance Base;
  base_loadModelImpl : ModelConfig → Param → Instance Base → Status * Instance Base;
  base_loadOVCompiledModel : ModelConfig → Instance Base → Status * Instance Base;
  run_on_model : Instance Base → bool * Instance Base;
  viewer : list ViewerCall → ViewerCall → Status
}.
Arguments instanceName {Base Param}.
Arguments instanceVersion {Base Param}.
Arguments isAvailable {Base Param}.
Arguments base_loadModel {Base Param}.
Arguments base_reloadModel {Base Param}.
Arguments base_retireModel {Base Param}.
Arguments base_cleanupFailedLoad {Base Param}.
Arguments base_loadModelImpl {Base Param}.
Arguments base_loadOVCompiledModel {Base Param}.
Arguments run_on_model {Base Param}.
Arguments viewer {Base Param}.

Section Functions.
Context {Base Param : Type} (env : Environment Base Param).

Definition set_autoCleanupEnabled (b : bool) (i : Instance Base) : Instance Base :=
  mkInstance (base i) b (performLowLatencyTransformation i) (sequenceManager i).
Definition set_performLowLatencyTransformation (b : bool) (i : Instance Base) :=
  mkInstance (base i) (autoCleanupEnabled i) b (sequenceManager i).
Definition set_sequenceManager (m : option SequenceManagerObject)
  (i : Instance Base) : Instance Base :=
  mkInstance (base i) (autoCleanupEnabled i) (performLowLatencyTransformation i) m.

(** One call on the viewer: its status, and the call appended to the log. *)
Definition call (c : ViewerCall) (calls : list ViewerCall)
  : Status * list ViewerCall :=
  (viewer env calls c, calls ++ [c]).

Definition loadModel (config : ModelConfig) (i : Instance Base)
  (calls : list ViewerCall) : Status * Instance Base * list ViewerCall :=
  let i := set_autoCleanupEnabled (getIdleSequenceCleanup config) i in
  let '(status, i) := base_loadModel env config i in
  if negb (ok status) then (status, i, calls) else
  if autoCleanupEnabled i then
    let '(status, calls) :=
      call (registerForCleanup (instanceName env (base i))
              (instanceVersion env (base i)) (sequenceManager i)) calls in
    if negb (ok status) then (status, i, calls)
    else (status_of_code OK, i, calls)
  else (status_of_code OK, i, calls).

Definition reloadModel (config : ModelConfig) (parameter : Param)
  (i : Instance Base) (calls : list ViewerCall)
  : Status * Instance Base * list ViewerCall :=
  let '(status, calls) :=
    if autoCleanupEnabled i && isAvailable env (base i) then
      call (unregisterFromCleanup (instanceName env (base i))
              (instanceVersion env (base i))) calls
    else (status_of_code OK, calls) in
  if negb (ok status) then (status, i, calls) else
  let '(status, i) := base_reloadModel env config parameter i in
  if negb (ok status) then (status, i, calls) else
  let i := set_autoCleanupEnabled (getIdleSequenceCleanup config) i in
  if autoCleanupEnabled i then
    let '(status, calls) :=
      call (registerForCleanup (instanceName env (base i))
              (instanceVersion env (base i)) (sequenceManager i)) calls in
    if negb (ok status) then (status, i, calls)
    else (status_of_code OK, i, calls)
  else (status_of_code OK, i, calls).

Definition retireModel (isPermanent : bool) (i : Instance Base)
  (calls : list ViewerCall) : Instance Base * list ViewerCall :=
  let calls :=
    if isPermanent && autoCleanupEnabled i then
      (call (unregisterFromCleanup (instanceName env (base i))
               (instanceVersion env (base i))) calls).2
    else calls in
  let i := base_retireModel env isPermanent i in
  (set_sequenceManager None i, calls).

Definition cleanupFailedLoad (i : Instance Base) : Instance Base :=
  set_sequenceManager None (base_cleanupFailedLoad env i).

Definition loadModelImpl (config : ModelConfig) (parameter : Param)
  (i : Instance Base) : Status * Instance Base :=
  let i := set_performLowLatencyTransformation
             (isLowLatencyTransformationUsed config) i in
  let i := set_sequenceManager
             (Some (make_SequenceManager (getMaxSequenceNumber config)
                      (getName config) (getVersion config))) i in
  base_loadModelImpl env config parameter i.

Definition loadOVCompiledModel (config : ModelConfig) (i : Instance Base)
  : Status * Instance Base :=
  if performLowLatencyTransformation i then
    let '(threw, i) := run_on_model env i in
    if threw then (status_of_code INTERNAL_ERROR, i)
    else base_loadOVCompiledModel env config i
  else base_loadOVCompiledModel env config i.

End Functions.

End Lifecycle.

(** A base class that succeeds and changes nothing, with a viewer that
    accepts every call; the base part of an instance is its availability. *)
Definition env_ok : Lifecycle.Environment bool unit :=
  Lifecycle.mkEnvironment bool unit
    (λ _, "dummy") (λ _, 1%Z) (λ available, available)
    (λ _ i, (status_of_code OK, i)) (λ _ _ i, (status_of_code OK, i))
    (λ _ i, i) (λ i, i)
    (λ _ _ i, (status_of_code OK, i)) (λ _ i, (status_of_code OK, i))
    (λ i, (false, i)) (λ _ _, status_of_code OK).

Definition config_cleanup : Lifecycle.ModelConfig :=
  Lifecycle.mkModelConfig true false 10 "dummy" 1.

Definition instance0 : Lifecycle.Instance bool :=
  Lifecycle.mkInstance true true false
    (Some (Lifecycle.make_SequenceManager 10 "dummy" 1)).

(** ** More statements *)

(** Two handles expose the same state layout: the same slot names with
    the same defaults, in the same order. *)
Definition same_layout (l l' : list VariableState) : Prop :=
  Forall2 (λ a b, get_name a = get_name b ∧ default_state a = default_state b) l l'.

(** The spec [infer] works with after validation and the manager's
    processing, the manager as that processing leaves it, and the handle
    as the inference step leaves it. *)
Definition resolvedSpec (mi : ModelInstance) (request : PredictRequest)
  (mgr : SequenceManager) : SequenceProcessingSpec :=
  (processRequestedSpec (validate mi request SequenceProcessingSpec_default).2 mgr).1.2.



(** ** The counter checker of the metrics flow test

    [checkRequestsCounter] of [metrics_flow_test.cpp] walks three nested
    [std::set]s of labels, builds for each combination the line the
    metrics endpoint should print, and asserts that the collected text
    contains it.  A failed [ASSERT_THAT] leaves the function; [value()]
    of an empty [std::optional] throws. *)

Module MetricFlow.

Definition dquote : string := String "034"%char EmptyString.
Definition newline : string := String "010"%char EmptyString.

(** The elements of a [std::set<std::string>] built from [l], in the
    order a range-for visits them: ascending, without repetition. *)
Definition std_set (l : list string) : list string :=
  merge_sort String.le (remove_dups l).

(** How a call of the checker ends: every assertion held, an assertion
    failed (on the expected text shown), or [value()] of the empty
    version threw. *)
Inductive Outcome : Type :=
  | Passed
  | Failed (expected : string)
  | Threw.

(** A range-for whose body may leave the function. *)
Fixpoint for_each {A : Type} (l : list A) (body : A → Outcome) : Outcome :=
  match l with
  | [] => Passed
  | x :: l' =>
      match body x with
      | Passed => for_each l' body
      | stop => stop
      end
  end.

(** [HasSubstr]: the needle occurs in the text. *)
Fixpoint has_substr (needle text : string) : bool :=
  String.prefix needle text
  || match text with
     | EmptyString => false
     | String _ text' => has_substr needle text'
     end.

(** The text the stream holds when it is compared: the labels, the
    version unless the method is the one reported without it, and the
    expected value. *)
Definition counterLine (metricName _api _interface _method endpointName : string)
  (version : option Z) (expectedValue : Z) : string :=
  metricName +:+ "{api=" +:+ dquote +:+ _api
    +:+ dquote +:+ ",interface=" +:+ dquote +:+ _interface
    +:+ dquote +:+ ",method=" +:+ dquote +:+ _method
    +:+ dquote +:+ ",name=" +:+ dquote +:+ endpointName +:+ dquote
    +:+ match version with
        | Some v => ",version=" +:+ dquote +:+ pretty v +:+ dquote
        | None => EmptyString
        end
    +:+ "}" +:+ " " +:+ pretty expectedValue +:+ newline.

Section Checker.
Variables (collectedMetricData metricName endpointName : string).
Variable endpointVersion : option Z.
Variables (interfaceName method api : string).
Variable value : Z.

(** The body of the two inner loops; [unversioned] is "ModelReady" in
    the one and "GetModelStatus" in the other. *)
Definition expectation (unversioned _interface _api _method : string) : Outcome :=
  let expectedValue :=
    if String.eqb interfaceName _interface && String.eqb method _method
       && String.eqb api _api
    then value else 0%Z in
  if negb (String.eqb _method unversioned) then
    match endpointVersion with
    | None => Threw
    | Some v =>
        let line := counterLine metricName _api _interface _method endpointName
                      (Some v) expectedValue in
        if has_substr line collectedMetricData then Passed else Failed line
    end
  else
    let line := counterLine metricName _api _interface _method endpointName
                  None expectedValue in
    if has_substr line collectedMetricData then Passed else Failed line.

Definition checkRequestsCounter : Outcome :=
  for_each (std_set ["gRPC"; "REST"]) (λ _interface,
    for_each (std_set ["TensorFlowServing"; "KServe"]) (λ _api,
      if String.eqb _api "KServe" then
        for_each (std_set ["ModelInfer"; "ModelMetadata"; "ModelReady"])
          (λ _method, expectation "ModelReady" _interface _api _method)
      else
        for_each (std_set ["Predict"; "GetModelMetadata"; "GetModelStatus"])
          (λ _method, expectation "GetModelStatus" _interface _api _method))).

End Checker.

(** The counters the checker visits, in order: interface, api, method,
    and the method of that api that carries no version. *)
Definition endpoints : list (string * string * string * string) :=
  _interface ← std_set ["gRPC"; "REST"];
  _api ← std_set ["TensorFlowServing"; "KServe"];
  if String.eqb _api "KServe" then
    _method ← std_set ["ModelInfer"; "ModelMetadata"; "ModelReady"];
    [(_interface, _api, _method, "ModelReady")]
  else
    _method ← std_set ["Predict"; "GetModelMetadata"; "GetModelStatus"];
    [(_interface, _api, _method, "GetModelStatus")].

(** The needle occurs in the text: what [HasSubstr] decides. *)
Definition occurs (needle text : string) : Prop :=
  ∃ before after, text = before +:+ needle +:+ after.

End MetricFlow.

(** ** Proof steps *)

(** Unfold the frame bookkeeping of the straight-line steps. *)
Ltac frames :=
  cbv [set_manager set_inferRequest set_response set_spec set_managerLock
       set_sequenceLock set_guard log enter sequenceRef getSequence
       sequenceManager inferRequest responseProto sequenceProcessingSpec
       sequenceManagerLock sequenceLock executingStreamIdGuard trace
       lockManager lockSequence unlockManager acquireHandle unlockSequence
       validateStep processSpecStep lookupSequence preInferenceStep
       deserializeStep inferenceStep serializeStep postInferenceStep].

Ltac ok_const := change (ok (status_of_code OK)) with true; cbv iota.

(** Run the lock automaton in hypothesis [H] over a concrete prefix. *)
Ltac run_locks H :=
  repeat progress
    (cbn [lockRun lockStep heldManager heldSequence nothingHeld] in H;
     rewrite ?bool_decide_eq_true_2 in H by done).

(** Enumerate the prefixes [pre] of a trace given by [H : pre ++ _ = t]. *)
Ltac split_prefix H pre :=
  repeat (destruct pre as [|? pre];
          [simpl in H
          |simpl in H; first [discriminate H | injection H as ? H; subst]]).

(** Split a goal about [infer] into its paths, one per early return, the
    last two being the completed request with and without removal. *)
Ltac infer_paths mi request response mgr handle :=
  unfold infer, infer_body, andThen; frames;
  destruct (validate mi request SequenceProcessingSpec_default)
    as [s1 spec1] eqn:Hv;
  destruct (ok s1) eqn:Hok1; [ok_const; cbn [fst snd]|cbn];
  [destruct (processRequestedSpec spec1 mgr) as [[s2 spec2] mgr2] eqn:Hp;
   destruct (ok s2) eqn:Hok2; [cbn [fst snd]|cbn];
   [destruct (sequenceExists (getSequenceId spec2) mgr2) eqn:Hex;
    cbn [negb];
    [ok_const|change (ok (status_of_code INTERNAL_ERROR)) with false; cbn];
    [destruct (preInferenceProcessing handle
                 (sequences mgr2 !!! getSequenceId spec2) spec2)
       as [s3 r3] eqn:Hpre;
     destruct (ok s3) eqn:Hok3; [|cbn];
     [destruct (deserializePredictRequest mi request r3) as [s4 r4] eqn:Hde;
      destruct (ok s4) eqn:Hok4; [|cbn];
      [destruct (performInference mi r4) as [s5 r5] eqn:Hin;
       destruct (ok s5) eqn:Hok5; [|cbn];
       [destruct (serializePredictResponse mi r5 response) as [s6 resp6] eqn:Hse;
        destruct (ok s6) eqn:Hok6; [|cbn];
        [destruct (postInferenceProcessing resp6 r5
                     (sequences mgr2 !!! getSequenceId spec2) spec2)
           as [[[s7 resp7] r7] seq7] eqn:Hpost;
         assert (s7 = status_of_code OK) as ->
           by (unfold postInferenceProcessing in Hpost; case_bool_decide;
               by simplify_eq);
         ok_const;
         unfold removeOnEnd; frames;
         case_bool_decide as Hend;
         [unfold removeSequence; cbn [sequences with_sequences];
          rewrite lookup_insert_eq; cbn
         |cbn]
        |]|]|]|]|]|]|].

(** The same for [infer_among]: the completed END comes twice, with the
    removal succeeding and failing. *)
Ltac infer_among_paths others mi request response mgr handle :=
  unfold infer_among, infer_body_among, andThen; frames;
  destruct (validate mi request SequenceProcessingSpec_default)
    as [s1 spec1] eqn:Hv;
  destruct (ok s1) eqn:Hok1; [ok_const; cbn [fst snd]|cbn];
  [destruct (processRequestedSpec spec1 mgr) as [[s2 spec2] mgr2] eqn:Hp;
   destruct (ok s2) eqn:Hok2; [cbn [fst snd]|cbn];
   [destruct (sequenceExists (getSequenceId spec2) mgr2) eqn:Hex;
    cbn [negb];
    [ok_const|change (ok (status_of_code INTERNAL_ERROR)) with false; cbn];
    [destruct (preInferenceProcessing handle
                 (sequences mgr2 !!! getSequenceId spec2) spec2)
       as [s3 r3] eqn:Hpre;
     destruct (ok s3) eqn:Hok3; [|cbn];
     [destruct (deserializePredictRequest mi request r3) as [s4 r4] eqn:Hde;
      destruct (ok s4) eqn:Hok4; [|cbn];
      [destruct (performInference mi r4) as [s5 r5] eqn:Hin;
       destruct (ok s5) eqn:Hok5; [|cbn];
       [destruct (serializePredictResponse mi r5 response) as [s6 resp6] eqn:Hse;
        destruct (ok s6) eqn:Hok6; [|cbn];
        [destruct (postInferenceProcessing resp6 r5
                     (sequences mgr2 !!! getSequenceId spec2) spec2)
           as [[[s7 resp7] r7] seq7] eqn:Hpost;
         assert (s7 = status_of_code OK) as ->
           by (unfold postInferenceProcessing in Hpost; case_bool_decide;
               by simplify_eq);
         ok_const;
         unfold removeOnEnd_among; frames;
         case_bool_decide as Hend;
         [unfold removeSequence; cbn [sequences with_sequences];
          destruct (sequences (others _) !! getSequenceId spec2)
            as [removed|] eqn:Hrm; cbn
         |cbn]
        |]|]|]|]|]|]|].

(** Refute [H : relocks t] for a concrete trace that does not take the
    manager's mutex again. *)
Ltac no_relock H :=
  let pre := fresh "pre" in
  let Ht := fresh "Ht" in
  destruct H as (pre & ? & ? & Ht); symmetry in Ht;
  split_prefix Ht pre; discriminate Ht.

(** An event is not in a list of other events. *)
Ltac not_in_list H :=
  repeat (apply elem_of_cons in H as [H|H]; [discriminate H|]);
  by apply elem_of_nil in H.

(** An event is in a list that shows it. *)
Ltac in_list := repeat first [apply list_elem_of_here | apply list_elem_of_further].

(** * Properties *)

(** ** Special inputs *)

Lemma extractSequenceId_shape1 proto id0 :
  tensor_shape proto = [1%Z] →
  extractSequenceId proto id0 =
  match uint64_val proto with
  | [v] => (status_of_code OK, v)
  | _ => (status_of_code SEQUENCE_ID_BAD_TYPE, id0)
  end.
Proof. unfold extractSequenceId. intros ->. reflexivity. Qed.

Lemma extractSequenceControlInput_shape1 proto c0 :
  tensor_shape proto = [1%Z] →
  extractSequenceControlInput proto c0 =
  match uint32_val proto with
  | [v] => (status_of_code OK, v)
  | _ => (status_of_code SEQUENCE_CONTROL_INPUT_BAD_TYPE, c0)
  end.
Proof. unfold extractSequenceControlInput. intros ->. reflexivity. Qed.

(** C6: both extractors test the shape information, the number of
    dimensions, the size of dimension 0 and the typed value field in this
    order, and the first test that fails decides the status whatever the
    later fields hold: no dimensions gives SPECIAL_INPUT_NO_TENSOR_SHAPE;
    two or more dimensions give INVALID_NO_OF_SHAPE_DIMENSIONS; one
    dimension of size other than 1 gives INVALID_SHAPE; shape (1) with a
    typed value field that does not hold exactly one entry (no value, or
    the value stored under another element type) gives
    SEQUENCE_ID_BAD_TYPE, resp. SEQUENCE_CONTROL_INPUT_BAD_TYPE.  The
    reference parameter is left as it was on every failure. *)
Theorem extract_failure_priority (proto : TensorProto) (v0 : N) :
  (tensor_shape proto = [] →
     extractSequenceId proto v0
       = (status_of_code SPECIAL_INPUT_NO_TENSOR_SHAPE, v0)
     ∧ extractSequenceControlInput proto v0
       = (status_of_code SPECIAL_INPUT_NO_TENSOR_SHAPE, v0))
  ∧ ((2 ≤ length (tensor_shape proto))%nat →
     getCode (extractSequenceId proto v0).1 = INVALID_NO_OF_SHAPE_DIMENSIONS
     ∧ (extractSequenceId proto v0).2 = v0
     ∧ getCode (extractSequenceControlInput proto v0).1
       = INVALID_NO_OF_SHAPE_DIMENSIONS
     ∧ (extractSequenceControlInput proto v0).2 = v0)
  ∧ (∀ d, tensor_shape proto = [d] → d ≠ 1%Z →
     getCode (extractSequenceId proto v0).1 = INVALID_SHAPE
     ∧ (extractSequenceId proto v0).2 = v0
     ∧ getCode (extractSequenceControlInput proto v0).1 = INVALID_SHAPE
     ∧ (extractSequenceControlInput proto v0).2 = v0)
  ∧ (tensor_shape proto = [1%Z] → length (uint64_val proto) ≠ 1%nat →
     extractSequenceId proto v0 = (status_of_code SEQUENCE_ID_BAD_TYPE, v0))
  ∧ (tensor_shape proto = [1%Z] → length (uint32_val proto) ≠ 1%nat →
     extractSequenceControlInput proto v0
       = (status_of_code SEQUENCE_CONTROL_INPUT_BAD_TYPE, v0)).
Proof.
  unfold extractSequenceId, extractSequenceControlInput.
  split; [|split; [|split; [|split]]].
  - by intros ->.
  - intros Hl.
    destruct (tensor_shape proto) as [|a [|b l]]; simpl in *; [lia | lia | done].
  - intros d -> Hd. simpl.
    rewrite bool_decide_eq_true_2; [done | congruence].
  - intros -> Hn. simpl. by destruct (uint64_val proto) as [|a [|b l]].
  - intros -> Hn. simpl. by destruct (uint32_val proto) as [|a [|b l]].
Qed.

(** The priority order at a proto that fails every test at once (no
    shape, no value), at protos failing from the second and from the third
    test on, at a float tensor given as sequence id, and at an unsigned-64
    value given as control input. *)
Lemma extract_failure_priority_witness :
  extractSequenceId (mkTensorProto DT_FLOAT [] [] [] []) 7
    = (status_of_code SPECIAL_INPUT_NO_TENSOR_SHAPE, 7)
  ∧ getCode (extractSequenceId (mkTensorProto DT_FLOAT [3%Z; 1%Z] [] [] []) 7).1
    = INVALID_NO_OF_SHAPE_DIMENSIONS
  ∧ getCode (extractSequenceControlInput (mkTensorProto DT_FLOAT [3%Z] [] [] []) 7).1
    = INVALID_SHAPE
  ∧ extractSequenceId (mkTensorProto DT_FLOAT [1%Z] [4%Z] [] []) 7
    = (status_of_code SEQUENCE_ID_BAD_TYPE, 7)
  ∧ extractSequenceControlInput (mkTensorProto DT_UINT32 [1%Z] [] [] [4]) 7
    = (status_of_code SEQUENCE_CONTROL_INPUT_BAD_TYPE, 7).
Proof.
  split; [|split; [|split; [|split]]].
  - apply (extract_failure_priority (mkTensorProto DT_FLOAT [] [] [] []) 7).
    reflexivity.
  - apply (extract_failure_priority (mkTensorProto DT_FLOAT [3%Z; 1%Z] [] [] []) 7).
    simpl. lia.
  - eapply (extract_failure_priority (mkTensorProto DT_FLOAT [3%Z] [] [] []) 7).
    + reflexivity.
    + lia.
  - apply (extract_failure_priority (mkTensorProto DT_FLOAT [1%Z] [4%Z] [] []) 7).
    + reflexivity.
    + simpl. lia.
  - apply (extract_failure_priority (mkTensorProto DT_UINT32 [1%Z] [] [] [4]) 7).
    + reflexivity.
    + simpl. lia.
Defined.

(** C10: on a proto of shape (1), [extractSequenceId] succeeds exactly
    when the field uint64_val holds one entry, and then yields that
    entry; with no entry or with two or more it returns
    SEQUENCE_ID_BAD_TYPE; the declared dtype has no influence on the
    result.  The same holds of [extractSequenceControlInput] with the
    field uint32_val and SEQUENCE_CONTROL_INPUT_BAD_TYPE. *)
Theorem extract_value_iff_one_entry (proto : TensorProto) (v0 : N) :
  tensor_shape proto = [1%Z] →
  ((ok (extractSequenceId proto v0).1 = true ↔ length (uint64_val proto) = 1%nat)
   ∧ (∀ v, uint64_val proto = [v] →
        extractSequenceId proto v0 = (status_of_code OK, v))
   ∧ (length (uint64_val proto) ≠ 1%nat →
        extractSequenceId proto v0 = (status_of_code SEQUENCE_ID_BAD_TYPE, v0))
   ∧ (∀ d, extractSequenceId (with_dtype d proto) v0 = extractSequenceId proto v0))
  ∧ ((ok (extractSequenceControlInput proto v0).1 = true
      ↔ length (uint32_val proto) = 1%nat)
   ∧ (∀ v, uint32_val proto = [v] →
        extractSequenceControlInput proto v0 = (status_of_code OK, v))
   ∧ (length (uint32_val proto) ≠ 1%nat →
        extractSequenceControlInput proto v0
          = (status_of_code SEQUENCE_CONTROL_INPUT_BAD_TYPE, v0))
   ∧ (∀ d, extractSequenceControlInput (with_dtype d proto) v0
           = extractSequenceControlInput proto v0)).
Proof.
  intros Hs. split.
  - rewrite (extractSequenceId_shape1 _ _ Hs). repeat split.
    + destruct (uint64_val proto) as [|a [|b l]]; simpl; intros; done.
    + destruct (uint64_val proto) as [|a [|b l]]; simpl; intros; done.
    + by intros v ->.
    + destruct (uint64_val proto) as [|a [|b l]]; simpl; intros; done.
    + intros d. rewrite extractSequenceId_shape1; done.
  - rewrite (extractSequenceControlInput_shape1 _ _ Hs). repeat split.
    + destruct (uint32_val proto) as [|a [|b l]]; simpl; intros; done.
    + destruct (uint32_val proto) as [|a [|b l]]; simpl; intros; done.
    + by intros v ->.
    + destruct (uint32_val proto) as [|a [|b l]]; simpl; intros; done.
    + intros d. rewrite extractSequenceControlInput_shape1; done.
Qed.

(** A proto declared as float whose uint64_val holds one entry is
    accepted; one declared unsigned-64 with two entries is not. *)
Lemma extract_value_iff_one_entry_witness :
  extractSequenceId (mkTensorProto DT_FLOAT [1%Z] [] [] [42]) 0
    = (status_of_code OK, 42)
  ∧ extractSequenceId (mkTensorProto DT_UINT64 [1%Z] [] [] [42; 43]) 0
    = (status_of_code SEQUENCE_ID_BAD_TYPE, 0)
  ∧ extractSequenceControlInput (mkTensorProto DT_UINT32 [1%Z] [] [] []) 0
    = (status_of_code SEQUENCE_CONTROL_INPUT_BAD_TYPE, 0).
Proof.
  split; [|split].
  - apply (extract_value_iff_one_entry (mkTensorProto DT_FLOAT [1%Z] [] [] [42]) 0);
      reflexivity.
  - apply (extract_value_iff_one_entry (mkTensorProto DT_UINT64 [1%Z] [] [] [42; 43]) 0).
    all: simpl; first [reflexivity | lia].
  - apply (extract_value_iff_one_entry (mkTensorProto DT_UINT32 [1%Z] [] [] []) 0).
    all: simpl; first [reflexivity | lia].
Defined.

(** [validateSpecialKeys] once both special inputs have supplied a value. *)
Lemma validateSpecialKeys_supplied request spec id c :
  suppliesValue extractSequenceId (inputs request !! "sequence_id") id →
  suppliesValue extractSequenceControlInput
    (inputs request !! "sequence_control_input") c →
  validateSpecialKeys request spec =
  if bool_decide (c ≠ SEQUENCE_END) && bool_decide (c ≠ NO_CONTROL_INPUT)
     && bool_decide (c ≠ SEQUENCE_START)
  then (status_of_code INVALID_SEQUENCE_CONTROL_INPUT, spec)
  else if (bool_decide (c = SEQUENCE_END) || bool_decide (c = NO_CONTROL_INPUT))
          && bool_decide (id = 0)
  then (status_of_code SEQUENCE_ID_NOT_PROVIDED, spec)
  else (status_of_code OK, mkSpec c id).
Proof.
  unfold validateSpecialKeys, suppliesValue.
  destruct (inputs request !! "sequence_id") as [p|];
    destruct (inputs request !! "sequence_control_input") as [q|];
    intros Hid Hc; rewrite ?Hid, ?Hc; subst; reflexivity.
Qed.

(** C5: with id and control the values the two special inputs supply,
    [validateSpecialKeys] returns INVALID_SEQUENCE_CONTROL_INPUT for every
    control outside 0 (CONTINUE), 1 (START), 2 (END), whatever the id;
    else SEQUENCE_ID_NOT_PROVIDED for control CONTINUE or END with id 0;
    and only otherwise OK with the spec holding that id and control.  The
    spec is left untouched by both failures. *)
Theorem validateSpecialKeys_cross_field (request : PredictRequest)
  (spec : SequenceProcessingSpec) (id c : N) :
  suppliesValue extractSequenceId (inputs request !! "sequence_id") id →
  suppliesValue extractSequenceControlInput
    (inputs request !! "sequence_control_input") c →
  (c ≠ NO_CONTROL_INPUT → c ≠ SEQUENCE_START → c ≠ SEQUENCE_END →
     validateSpecialKeys request spec
       = (status_of_code INVALID_SEQUENCE_CONTROL_INPUT, spec))
  ∧ (c = NO_CONTROL_INPUT ∨ c = SEQUENCE_END → id = 0 →
     validateSpecialKeys request spec
       = (status_of_code SEQUENCE_ID_NOT_PROVIDED, spec))
  ∧ (c = SEQUENCE_START ∨ ((c = NO_CONTROL_INPUT ∨ c = SEQUENCE_END) ∧ id ≠ 0) →
     validateSpecialKeys request spec = (status_of_code OK, mkSpec c id))
  ∧ (ok (validateSpecialKeys request spec).1 = true →
     (validateSpecialKeys request spec).2 = mkSpec c id).
Proof.
  intros Hid Hc. rewrite (validateSpecialKeys_supplied _ _ _ _ Hid Hc).
  unfold NO_CONTROL_INPUT, SEQUENCE_START, SEQUENCE_END.
  repeat split.
  - intros H0 H1 H2. repeat case_bool_decide; simpl; congruence.
  - intros [-> | ->] ->; reflexivity.
  - intros [-> | [[-> | ->] Hne]]; try reflexivity;
      repeat case_bool_decide; simpl; congruence.
  - repeat case_bool_decide; simpl; done.
Qed.

(** Scenario S5. *)
Lemma validateSpecialKeys_cross_field_witness :
  validateSpecialKeys request_S5 SequenceProcessingSpec_default
    = (status_of_code INVALID_SEQUENCE_CONTROL_INPUT, SequenceProcessingSpec_default).
Proof.
  apply (validateSpecialKeys_cross_field request_S5
           SequenceProcessingSpec_default 1 9).
  - reflexivity.
  - reflexivity.
  - discriminate.
  - discriminate.
  - discriminate.
Defined.

(** C7: a request with no input named sequence_id is validated with the
    sequence id 0, exactly as the same request carrying the id 0: when
    its control input supplies START it is accepted, the spec holds START
    and the id 0, and generic validation runs with that spec; when its
    control input supplies CONTINUE or END (or is absent) it fails with
    SEQUENCE_ID_NOT_PROVIDED.  A request with no input named
    sequence_control_input is validated with the control 0 (CONTINUE),
    exactly as the same request carrying that control: when its sequence
    id input supplies a non-zero id it is accepted, the spec holds
    CONTINUE and that id, and generic validation runs with that spec;
    when the id is 0 it fails with SEQUENCE_ID_NOT_PROVIDED.  A request
    with neither input fails special-key validation, and hence
    [validate], with SEQUENCE_ID_NOT_PROVIDED. *)
Theorem absent_special_inputs_default (mi : ModelInstance)
  (request : PredictRequest) (spec : SequenceProcessingSpec) :
  (inputs request !! "sequence_id" = None →
     validateSpecialKeys request spec
       = validateSpecialKeys
           (mkPredictRequest (<["sequence_id" := sequenceIdTensor 0]> (inputs request)))
           spec
     ∧ ∀ c, suppliesValue extractSequenceControlInput
              (inputs request !! "sequence_control_input") c →
         (c = SEQUENCE_START →
            validateSpecialKeys request spec
              = (status_of_code OK, mkSpec SEQUENCE_START 0)
            ∧ validate mi request spec
              = (validateRequest mi request, mkSpec SEQUENCE_START 0))
         ∧ (c = NO_CONTROL_INPUT ∨ c = SEQUENCE_END →
            validateSpecialKeys request spec
              = (status_of_code SEQUENCE_ID_NOT_PROVIDED, spec)))
  ∧ (inputs request !! "sequence_control_input" = None →
     validateSpecialKeys request spec
       = validateSpecialKeys
           (mkPredictRequest
              (<["sequence_control_input" := sequenceControlTensor NO_CONTROL_INPUT]>
                 (inputs request)))
           spec
     ∧ ∀ id, suppliesValue extractSequenceId (inputs request !! "sequence_id") id →
         (id ≠ 0 →
            validateSpecialKeys request spec
              = (status_of_code OK, mkSpec NO_CONTROL_INPUT id)
            ∧ validate mi request spec
              = (validateRequest mi request, mkSpec NO_CONTROL_INPUT id))
         ∧ (id = 0 →
            validateSpecialKeys request spec
              = (status_of_code SEQUENCE_ID_NOT_PROVIDED, spec)))
  ∧ (inputs request !! "sequence_id" = None →
     inputs request !! "sequence_control_input" = None →
     validateSpecialKeys request spec
       = (status_of_code SEQUENCE_ID_NOT_PROVIDED, spec)
     ∧ validate mi request spec
       = (status_of_code SEQUENCE_ID_NOT_PROVIDED, spec)).
Proof.
  split; [|split].
  - intros Hn. split.
    + unfold validateSpecialKeys. simpl.
      rewrite Hn, lookup_insert_eq, lookup_insert_ne by done. reflexivity.
    + intros c Hc.
      assert (suppliesValue extractSequenceId (inputs request !! "sequence_id") 0)
        as Hid by (by rewrite Hn).
      unfold validate.
      rewrite (validateSpecialKeys_supplied _ spec _ _ Hid Hc).
      split; [intros ->; split; reflexivity | intros [-> | ->]; reflexivity].
  - intros Hn. split.
    + unfold validateSpecialKeys. simpl.
      rewrite Hn, lookup_insert_eq, lookup_insert_ne by done.
      destruct (inputs request !! "sequence_id") as [p|]; [|reflexivity].
      destruct (extractSequenceId p 0) as [s i]. by destruct (ok s).
    + intros id Hid.
      assert (suppliesValue extractSequenceControlInput
                (inputs request !! "sequence_control_input") 0)
        as Hc by (by rewrite Hn).
      unfold validate.
      rewrite (validateSpecialKeys_supplied _ spec _ _ Hid Hc).
      split; [|by intros ->].
      intros Hne. rewrite (bool_decide_eq_false_2 (id = 0)) by done.
      split; reflexivity.
  - intros Hi Hc. unfold validate, validateSpecialKeys. by rewrite Hi, Hc.
Qed.

(** A START without sequence id is accepted with the id 0; the id 42
    without control input is accepted as a CONTINUE; a request with
    neither input is refused. *)
Lemma absent_special_inputs_default_witness :
  validateSpecialKeys (request_without_id SEQUENCE_START) SequenceProcessingSpec_default
  = (status_of_code OK, mkSpec SEQUENCE_START 0)
  ∧ validateSpecialKeys (request_without_control 42) SequenceProcessingSpec_default
    = (status_of_code OK, mkSpec NO_CONTROL_INPUT 42)
  ∧ validate mi_ok (mkPredictRequest ∅) SequenceProcessingSpec_default
    = (status_of_code SEQUENCE_ID_NOT_PROVIDED, SequenceProcessingSpec_default).
Proof.
  split; [|split].
  - assert (inputs (request_without_id SEQUENCE_START) !! "sequence_id" = None)
      as Hn by (vm_compute; reflexivity).
    assert (suppliesValue extractSequenceControlInput
              (inputs (request_without_id SEQUENCE_START) !! "sequence_control_input")
              SEQUENCE_START) as Hc by (vm_compute; reflexivity).
    exact (proj1 (proj1 (proj2 (proj1 (absent_special_inputs_default mi_ok
             (request_without_id SEQUENCE_START) SequenceProcessingSpec_default) Hn)
             SEQUENCE_START Hc) eq_refl)).
  - assert (inputs (request_without_control 42) !! "sequence_control_input" = None)
      as Hn by (vm_compute; reflexivity).
    assert (suppliesValue extractSequenceId
              (inputs (request_without_control 42) !! "sequence_id") 42)
      as Hid by (vm_compute; reflexivity).
    assert (42 ≠ 0) as Hne by discriminate.
    exact (proj1 (proj1 (proj2 (proj1 (proj2 (absent_special_inputs_default mi_ok
             (request_without_control 42) SequenceProcessingSpec_default)) Hn)
             42 Hid) Hne)).
  - apply (absent_special_inputs_default mi_ok (mkPredictRequest ∅)
             SequenceProcessingSpec_default);
      reflexivity.
Defined.

(** ** State hand-over *)

Lemma restoreStates_all_saved (saved : gmap string Tensor) (l : list VariableState) :
  Forall (λ st, is_Some (saved !! get_name st)) l →
  restoreStates saved l
  = (status_of_code OK,
     (λ st, set_state (default [] (saved !! get_name st)) st) <$> l).
Proof.
  induction 1 as [|st l [t Ht] _ IH]; simpl; [done|].
  by rewrite Ht, IH.
Qed.

Lemma restoreStates_missing (saved : gmap string Tensor) (l : list VariableState) :
  Exists (λ st, saved !! get_name st = None) l →
  (restoreStates saved l).1 = status_of_code INTERNAL_ERROR.
Proof.
  induction l as [|st l IH]; intros H; [by apply Exists_nil in H|].
  simpl. destruct (saved !! get_name st) as [t|] eqn:Ht; [|done].
  apply Exists_cons in H as [H|H]; [congruence|].
  specialize (IH H). by destruct (restoreStates saved l).
Qed.

(** C3: [preInferenceProcessing] on START returns OK and leaves the
    handle with the same slots, each now holding the model's default
    payload.  On any other control (CONTINUE or END), when the Sequence's
    saved memory state has an entry for every slot name the handle
    exposes, it returns OK and leaves the handle with the same slots,
    each now holding the payload saved under its name; when some exposed
    slot name is absent from the saved map it returns INTERNAL_ERROR.
    In the successful cases the slots keep their number, order, names
    and defaults, and the handle's tensors are untouched. *)
Theorem preInferenceProcessing_spec (inferRequest : InferRequest)
  (sequence : Sequence) (spec : SequenceProcessingSpec) :
  (getSequenceControlInput spec = SEQUENCE_START →
     (preInferenceProcessing inferRequest sequence spec).1 = status_of_code OK
     ∧ length (query_state (preInferenceProcessing inferRequest sequence spec).2)
       = length (query_state inferRequest)
     ∧ tensors (preInferenceProcessing inferRequest sequence spec).2
       = tensors inferRequest
     ∧ ∀ i st, query_state inferRequest !! i = Some st →
         ∃ st',
           query_state (preInferenceProcessing inferRequest sequence spec).2 !! i
           = Some st'
           ∧ get_name st' = get_name st
           ∧ default_state st' = default_state st
           ∧ get_state st' = default_state st)
  ∧ (getSequenceControlInput spec ≠ SEQUENCE_START →
     (∀ st, st ∈ query_state inferRequest →
            is_Some (getMemoryState sequence !! get_name st)) →
     (preInferenceProcessing inferRequest sequence spec).1 = status_of_code OK
     ∧ length (query_state (preInferenceProcessing inferRequest sequence spec).2)
       = length (query_state inferRequest)
     ∧ tensors (preInferenceProcessing inferRequest sequence spec).2
       = tensors inferRequest
     ∧ ∀ i st, query_state inferRequest !! i = Some st →
         ∃ st',
           query_state (preInferenceProcessing inferRequest sequence spec).2 !! i
           = Some st'
           ∧ get_name st' = get_name st
           ∧ default_state st' = default_state st
           ∧ getMemoryState sequence !! get_name st = Some (get_state st'))
  ∧ (getSequenceControlInput spec ≠ SEQUENCE_START →
     (∃ st, st ∈ query_state inferRequest
          ∧ getMemoryState sequence !! get_name st = None) →
     (preInferenceProcessing inferRequest sequence spec).1
     = status_of_code INTERNAL_ERROR).
Proof.
  unfold preInferenceProcessing. split; [|split].
  - intros ->. rewrite bool_decide_eq_true_2 by done.
    cbn [fst snd query_state tensors with_states].
    split_and!; [done | by rewrite length_fmap | done |].
    intros i st Hi. exists (reset st). by rewrite list_lookup_fmap, Hi.
  - intros Hc Hall. rewrite bool_decide_eq_false_2 by done.
    rewrite restoreStates_all_saved by (by apply Forall_forall).
    cbn [fst snd query_state tensors with_states].
    split_and!; [done | by rewrite length_fmap | done |].
    intros i st Hi. rewrite list_lookup_fmap, Hi.
    destruct (Hall st) as [t Ht]; [by eapply list_elem_of_lookup_2|].
    eexists; split; [reflexivity|]. rewrite Ht. done.
  - intros Hc Hex. rewrite bool_decide_eq_false_2 by done.
    pose proof (restoreStates_missing (getMemoryState sequence)
                  (query_state inferRequest)) as Hm.
    destruct (restoreStates _ _) as [s l]. simpl in *. apply Hm.
    apply Exists_exists. destruct Hex as [st [? ?]]. by exists st.
Qed.

(** A handle with slots h and c, holding 1 and 2 with default 0: a START
    leaves slot c at 0; a CONTINUE on a Sequence that saved 5 and 6
    leaves slot c at 6; a CONTINUE on a Sequence that saved only h is
    refused. *)
Lemma preInferenceProcessing_spec_witness :
  (∃ st',
     query_state
       (preInferenceProcessing handle_hc (mkSequence ∅ false)
          (mkSpec SEQUENCE_START 42)).2 !! 1%nat = Some st'
     ∧ get_name st' = "c" ∧ default_state st' = [0%Z] ∧ get_state st' = [0%Z])
  ∧ (∃ st',
       query_state
         (preInferenceProcessing handle_hc
            (mkSequence {[ "h" := [5%Z]; "c" := [6%Z] ]} false)
            (mkSpec NO_CONTROL_INPUT 42)).2 !! 1%nat = Some st'
       ∧ get_name st' = "c" ∧ default_state st' = [0%Z]
       ∧ ({[ "h" := [5%Z]; "c" := [6%Z] ]} : gmap string Tensor) !! "c"
         = Some (get_state st'))
  ∧ (preInferenceProcessing handle_hc (mkSequence {[ "h" := [5%Z] ]} false)
       (mkSpec NO_CONTROL_INPUT 42)).1
    = status_of_code INTERNAL_ERROR.
Proof.
  split; [|split].
  - exact (proj2 (proj2 (proj2
             (proj1 (preInferenceProcessing_spec handle_hc (mkSequence ∅ false)
                       (mkSpec SEQUENCE_START 42)) eq_refl)))
             1%nat (mkVariableState "c" [2%Z] [0%Z]) eq_refl).
  - assert (∀ st, st ∈ query_state handle_hc →
              is_Some (({[ "h" := [5%Z]; "c" := [6%Z] ]} : gmap string Tensor)
                         !! get_name st)) as Hall.
    { intros st Hst. cbn in Hst.
      apply elem_of_cons in Hst as [-> | Hst];
        [|apply list_elem_of_singleton in Hst as ->];
        vm_compute; by eexists. }
    assert (NO_CONTROL_INPUT ≠ SEQUENCE_START) as Hc by discriminate.
    exact (proj2 (proj2 (proj2
             (proj1 (proj2 (preInferenceProcessing_spec handle_hc
                              (mkSequence {[ "h" := [5%Z]; "c" := [6%Z] ]} false)
                              (mkSpec NO_CONTROL_INPUT 42))) Hc Hall)))
             1%nat (mkVariableState "c" [2%Z] [0%Z]) eq_refl).
  - apply (preInferenceProcessing_spec handle_hc
             (mkSequence {[ "h" := [5%Z] ]} false) (mkSpec NO_CONTROL_INPUT 42)).
    + discriminate.
    + exists (mkVariableState "c" [2%Z] [0%Z]). split; [|reflexivity].
      apply list_elem_of_lookup. exists 1%nat. reflexivity.
Defined.


(** ** The modelled sequence manager *)

(** The scan never yields the reserved id 0. *)
Lemma scanUnusedId_nonzero used n c : c ≠ 0 → scanUnusedId used n c ≠ 0.
Proof.
  revert c. induction n as [|n IH]; intros c Hc; simpl; [done|].
  case_bool_decide; [apply IH; lia | done].
Qed.



(** What a successful [processRequestedSpec] leaves. *)
Lemma processRequestedSpec_ok spec mgr status spec' mgr' :
  processRequestedSpec spec mgr = (status, spec', mgr') →
  ok status = true →
  getSequenceControlInput spec' = getSequenceControlInput spec
  ∧ getSequenceId spec' ≠ 0
  ∧ (getSequenceId spec ≠ 0 → spec' = spec)
  ∧ sequenceExists (getSequenceId spec') mgr' = true
  ∧ (getSequenceControlInput spec ≠ SEQUENCE_START → mgr' = mgr)
  ∧ (getSequenceControlInput spec = SEQUENCE_START →
     sequences mgr' = <[getSequenceId spec' := Sequence_new]> (sequences mgr)).
Proof.
  unfold processRequestedSpec. intros H Hok.
  repeat (case_bool_decide ||
          match type of H with context [sequenceExists ?i ?m] =>
            destruct (sequenceExists i m) eqn:?
          end);
    simplify_eq; try done; simpl.
  all: split_and!; try done; try (by apply scanUnusedId_nonzero).
  all: unfold sequenceExists; simpl; apply bool_decide_eq_true_2;
    rewrite lookup_insert_eq; by eexists.
Qed.

(** CONTINUE and END on an id that is not there. *)
Lemma processRequestedSpec_absent spec mgr :
  getSequenceControlInput spec ≠ SEQUENCE_START →
  getSequenceId spec ≠ 0 →
  sequences mgr !! getSequenceId spec = None →
  processRequestedSpec spec mgr = (status_of_code SEQUENCE_MISSING, spec, mgr).
Proof.
  intros Hc Hid Hn. unfold processRequestedSpec, sequenceExists.
  rewrite Hn. repeat case_bool_decide; done.
Qed.

(** The scenarios S1 to S4 and S7 of the spec.  START
    with id 0 yields a non-zero id and one more sequence; a second START
    with id 42 is refused; CONTINUE on an unknown id and END with id 0
    are refused; START on a full manager is refused. *)
Lemma manager_scenarios :
  processRequestedSpec (mkSpec SEQUENCE_START 0) mgr_live42
  = (status_of_code OK, mkSpec SEQUENCE_START 1,
     with_sequences (<[1 := Sequence_new]> (sequences mgr_live42)) mgr_live42)
  ∧ (processRequestedSpec (mkSpec SEQUENCE_START 42) mgr_live42).1.1
    = status_of_code SEQUENCE_ALREADY_EXISTS
  ∧ (processRequestedSpec (mkSpec NO_CONTROL_INPUT 43) mgr_live42).1.1
    = status_of_code SEQUENCE_MISSING
  ∧ (processRequestedSpec (mkSpec SEQUENCE_END 0) mgr_live42).1.1
    = status_of_code SEQUENCE_ID_NOT_PROVIDED
  ∧ processRequestedSpec (mkSpec SEQUENCE_START 0)
      (mkSequenceManager (sequences mgr_live42) 1)
    = (status_of_code MAX_SEQUENCES_REACHED, mkSpec SEQUENCE_START 0,
       mkSequenceManager (sequences mgr_live42) 1).
Proof. split_and!; vm_compute; reflexivity. Qed.

(** ** Post-inference processing *)

(** X22: [postInferenceProcessing] always returns OK.  On END it leaves
    the handle with the same slots, each now holding the model's default
    payload, and leaves the Sequence as it is.  On any other control it
    leaves the handle as it is and replaces the Sequence's memory state
    through [updateMemoryState]: afterwards the Sequence holds no entry
    under a name the handle does not expose and, the slot names being
    distinct, holds under each slot's name that slot's current payload;
    the idle flag is kept.  For every control it leaves every output of
    the response other than sequence_id as it was, and when the response
    had no output named sequence_id it gains one of shape (1) and type
    unsigned-64 that carries the spec's sequence id. *)
Theorem postInferenceProcessing_spec (response : PredictResponse)
  (inferRequest : InferRequest) (sequence : Sequence)
  (spec : SequenceProcessingSpec) :
  (postInferenceProcessing response inferRequest sequence spec).1.1.1
  = status_of_code OK
  ∧ (getSequenceControlInput spec = SEQUENCE_END →
     length (query_state
               (postInferenceProcessing response inferRequest sequence spec).1.2)
     = length (query_state inferRequest)
     ∧ tensors (postInferenceProcessing response inferRequest sequence spec).1.2
       = tensors inferRequest
     ∧ (∀ i st, query_state inferRequest !! i = Some st →
          ∃ st',
            query_state
              (postInferenceProcessing response inferRequest sequence spec).1.2 !! i
            = Some st'
            ∧ get_name st' = get_name st
            ∧ default_state st' = default_state st
            ∧ get_state st' = default_state st)
     ∧ (postInferenceProcessing response inferRequest sequence spec).2 = sequence)
  ∧ (getSequenceControlInput spec ≠ SEQUENCE_END →
     (postInferenceProcessing response inferRequest sequence spec).1.2 = inferRequest
     ∧ isIdle (postInferenceProcessing response inferRequest sequence spec).2
       = isIdle sequence
     ∧ (∀ name, name ∉ get_name <$> query_state inferRequest →
          getMemoryState (postInferenceProcessing response inferRequest sequence spec).2
            !! name = None)
     ∧ (NoDup (get_name <$> query_state inferRequest) →
        ∀ st, st ∈ query_state inferRequest →
          getMemoryState (postInferenceProcessing response inferRequest sequence spec).2
            !! get_name st = Some (get_state st)))
  ∧ (∀ name, name ≠ "sequence_id" →
       outputs (postInferenceProcessing response inferRequest sequence spec).1.1.2 !! name
       = outputs response !! name)
  ∧ (outputs response !! "sequence_id" = None →
     has_sequence_id_output
       (postInferenceProcessing response inferRequest sequence spec).1.1.2
       (getSequenceId spec)).
Proof.
  unfold postInferenceProcessing. split_and!.
  - by case_bool_decide.
  - intros ->. rewrite bool_decide_eq_true_2 by done.
    cbn [fst snd query_state tensors with_states].
    split_and!; [by rewrite length_fmap | done | | done].
    intros i st Hi. exists (reset st). by rewrite list_lookup_fmap, Hi.
  - intros Hne. rewrite bool_decide_eq_false_2 by done.
    cbn [fst snd updateMemoryState getMemoryState isIdle].
    split_and!; [done | done | |].
    + intros name Hn. apply not_elem_of_list_to_map_1.
      by rewrite <- list_fmap_compose.
    + intros Hnd st Hst. apply elem_of_list_to_map_1.
      * by rewrite <- list_fmap_compose.
      * apply list_elem_of_fmap. by exists st.
  - intros name Hne. case_bool_decide; cbn; by rewrite lookup_insert_ne.
  - intros Hn. unfold has_sequence_id_output.
    case_bool_decide; cbn; rewrite lookup_insert_eq, Hn; by eexists.
Qed.

(** An END on the handle with slots h and c leaves slot c at its default
    0; a START on an empty response with id 7 yields the output. *)
Lemma postInferenceProcessing_spec_witness :
  (∃ st',
     query_state
       (postInferenceProcessing response0 handle_hc Sequence_new
          (mkSpec SEQUENCE_END 7)).1.2 !! 1%nat = Some st'
     ∧ get_name st' = "c" ∧ default_state st' = [0%Z] ∧ get_state st' = [0%Z])
  ∧ getMemoryState
      (postInferenceProcessing response0 handle_hc
         (mkSequence {[ "old" := [9%Z] ]} true) (mkSpec NO_CONTROL_INPUT 7)).2
      !! "old" = None
  ∧ has_sequence_id_output
      (postInferenceProcessing response0 handle0 Sequence_new
         (mkSpec SEQUENCE_START 7)).1.1.2 7.
Proof.
  split; [|split].
  - exact (proj1 (proj2 (proj2
             (proj1 (proj2 (postInferenceProcessing_spec response0 handle_hc
                              Sequence_new (mkSpec SEQUENCE_END 7))) eq_refl)))
             1%nat (mkVariableState "c" [2%Z] [0%Z]) eq_refl).
  - assert (NO_CONTROL_INPUT ≠ SEQUENCE_END) as Hc by discriminate.
    assert ("old" ∉ get_name <$> query_state handle_hc) as Hn.
    { cbn. intros H. not_in_list H. }
    exact (proj1 (proj2 (proj2
             (proj1 (proj2 (proj2 (postInferenceProcessing_spec response0 handle_hc
                              (mkSequence {[ "old" := [9%Z] ]} true)
                              (mkSpec NO_CONTROL_INPUT 7)))) Hc)))
             "old" Hn).
  - apply (postInferenceProcessing_spec response0 handle0 Sequence_new
             (mkSpec SEQUENCE_START 7)).
    reflexivity.
Defined.

(** C2 (defect of the code): on a response that already has an output
    named sequence_id, here of type float and shape (3) with three
    values, post-processing does not make that output the shape-(1)
    unsigned-64 tensor carrying the id.  It adds to the entry it finds:
    the shape becomes (3, 1), the three float values stay, and the id is
    the only unsigned-64 value, under the type unsigned-64.  A request
    reaches post-processing with such a response when the model declares
    an output of that name, which serialization writes first: [infer]
    then returns OK with that output. *)
Lemma sequence_id_output_appended :
  (outputs (postInferenceProcessing response_taken handle0 Sequence_new
              (mkSpec NO_CONTROL_INPUT 42)).1.1.2 !! "sequence_id"
   = Some (mkTensorProto DT_UINT64 [3%Z; 1%Z] [1%Z; 2%Z; 3%Z] [] [42])
   ∧ ¬ has_sequence_id_output
         (postInferenceProcessing response_taken handle0 Sequence_new
            (mkSpec NO_CONTROL_INPUT 42)).1.1.2 42)
  ∧ ((infer mi_output_named_sequence_id (request_of 42 NO_CONTROL_INPUT)
        response0 mgr_live42 handle0).1 = status_of_code OK
     ∧ outputs
         (responseProto
            (infer mi_output_named_sequence_id (request_of 42 NO_CONTROL_INPUT)
               response0 mgr_live42 handle0).2) !! "sequence_id"
       = Some (mkTensorProto DT_UINT64 [3%Z; 1%Z] [1%Z; 2%Z; 3%Z] [] [42])
     ∧ ¬ has_sequence_id_output
           (responseProto
              (infer mi_output_named_sequence_id (request_of 42 NO_CONTROL_INPUT)
                 response0 mgr_live42 handle0).2) 42).
Proof.
  split; [split|split; [|split]]; try (vm_compute; reflexivity).
  - intros (p & Hp & Hshape & _).
    vm_compute in Hp. injection Hp as <-. discriminate Hshape.
  - intros (p & Hp & Hshape & _).
    vm_compute in Hp. injection Hp as <-. discriminate Hshape.
Qed.

(** ** The pipeline, path by path *)

Section Paths.
Variable mi : ModelInstance.
Variables (request : PredictRequest) (response : PredictResponse).
Variables (mgr : SequenceManager) (handle : InferRequest).

Lemma postInferenceProcessing_ok resp r sequence spec :
  (postInferenceProcessing resp r sequence spec).1.1.1 = status_of_code OK.
Proof. unfold postInferenceProcessing. by case_bool_decide. Qed.

(** Validation fails: [infer] returns at once. *)
Lemma infer_rejected :
  ok (validate mi request SequenceProcessingSpec_default).1 = false →
  infer mi request response mgr handle
  = ((validate mi request SequenceProcessingSpec_default).1,
     set_spec (validate mi request SequenceProcessingSpec_default).2
       (enter mgr handle response)).
Proof.
  intros H. unfold infer, infer_body, andThen at 1. unfold validateStep.
  cbn [sequenceProcessingSpec enter].
  destruct (validate mi request _) as [s1 spec1]. simpl in H. rewrite H.
  reflexivity.
Qed.

(** The manager refuses the spec: [infer] returns under the manager's
    mutex, which the lock object releases. *)
Lemma infer_unresolved s1 spec1 s2 spec2 mgr2 :
  validate mi request SequenceProcessingSpec_default = (s1, spec1) →
  ok s1 = true →
  processRequestedSpec spec1 mgr = (s2, spec2, mgr2) →
  ok s2 = false →
  (infer mi request response mgr handle).1 = s2
  ∧ trace (infer mi request response mgr handle).2 = [MgrLock; MgrUnlock mgr2]
  ∧ sequenceManager (infer mi request response mgr handle).2 = mgr2.
Proof.
  intros Hv Hok1 Hp Hok2.
  unfold infer, infer_body, andThen. frames.
  rewrite Hv, Hok1. ok_const. rewrite Hp, Hok2. simpl. done.
Qed.

(** The manager resolves the spec: the hand-off, the handle, and then
    one of three endings. *)
Lemma infer_resolved s1 spec1 s2 spec2 mgr2 :
  validate mi request SequenceProcessingSpec_default = (s1, spec1) →
  ok s1 = true →
  processRequestedSpec spec1 mgr = (s2, spec2, mgr2) →
  ok s2 = true →
  let r := infer mi request response mgr handle in
  let id := getSequenceId spec2 in
  ∃ rest,
    trace r.2 = MgrLock :: SeqLock id :: MgrUnlock mgr2 :: HandleAcquire :: rest
    ∧ ((ok r.1 = false ∧ rest = [HandleRelease; SeqUnlock id]
        ∧ sequenceManager r.2 = mgr2)
       ∨ (ok r.1 = true ∧ getSequenceControlInput spec2 ≠ SEQUENCE_END
          ∧ rest = [SeqUnlock id; HandleRelease]
          ∧ ∃ s, sequenceManager r.2
                 = with_sequences (<[id := s]> (sequences mgr2)) mgr2)
       ∨ (ok r.1 = true ∧ getSequenceControlInput spec2 = SEQUENCE_END
          ∧ rest = [SeqUnlock id; MgrLock; HandleRelease;
                    MgrUnlock (sequenceManager r.2)]
          ∧ sequences (sequenceManager r.2) = delete id (sequences mgr2)
          ∧ maxSequenceNumber (sequenceManager r.2) = maxSequenceNumber mgr2)).
Proof.
  intros Hv Hok1 Hp Hok2.
  destruct (processRequestedSpec_ok _ _ _ _ _ Hp Hok2) as (_ & _ & _ & Hex & _).
  unfold infer, infer_body, andThen. frames.
  rewrite Hv, Hok1. ok_const. rewrite Hp, Hok2, Hex. cbn [negb]. ok_const.
  destruct (preInferenceProcessing handle _ spec2) as [s3 r3] eqn:Hpre.
  destruct (ok s3) eqn:Hok3; [|simpl; eauto 10].
  destruct (deserializePredictRequest mi request r3) as [s4 r4] eqn:Hde.
  destruct (ok s4) eqn:Hok4; [|simpl; eauto 10].
  destruct (performInference mi r4) as [s5 r5] eqn:Hin.
  destruct (ok s5) eqn:Hok5; [|simpl; eauto 10].
  destruct (serializePredictResponse mi r5 response) as [s6 resp6] eqn:Hse.
  destruct (ok s6) eqn:Hok6; [|simpl; eauto 10].
  pose proof (postInferenceProcessing_ok resp6 r5
                (sequences mgr2 !!! getSequenceId spec2) spec2) as Hpo.
  destruct (postInferenceProcessing resp6 r5 _ spec2)
    as [[[s7 resp7] r7] seq7] eqn:Hpost.
  simpl in Hpo. subst s7. ok_const.
  unfold removeOnEnd. frames.
  case_bool_decide as Hend.
  - unfold removeSequence. cbn [sequences with_sequences].
    rewrite lookup_insert_eq. simpl.
    eexists; split; [reflexivity|]. right; right.
    split_and!; try done. by rewrite delete_insert_eq.
  - simpl. eexists; split; [reflexivity|]. right; left. eauto.
Qed.

Lemma infer_trace_shape :
  TraceShape (trace (infer mi request response mgr handle).2).
Proof.
  unfold infer, infer_body, andThen. frames.
  destruct (validate mi request _) as [s1 spec1] eqn:Hv.
  destruct (ok s1) eqn:Hok1; [|simpl; constructor]. ok_const.
  destruct (processRequestedSpec spec1 mgr) as [[s2 spec2] mgr2] eqn:Hp.
  destruct (ok s2) eqn:Hok2; [|simpl; constructor].
  destruct (sequenceExists _ mgr2) eqn:Hex; [|simpl; constructor].
  cbn [negb]. ok_const.
  destruct (preInferenceProcessing handle _ spec2) as [s3 r3] eqn:Hpre.
  destruct (ok s3) eqn:Hok3; [|simpl; constructor].
  destruct (deserializePredictRequest mi request r3) as [s4 r4] eqn:Hde.
  destruct (ok s4) eqn:Hok4; [|simpl; constructor].
  destruct (performInference mi r4) as [s5 r5] eqn:Hin.
  destruct (ok s5) eqn:Hok5; [|simpl; constructor].
  destruct (serializePredictResponse mi r5 response) as [s6 resp6] eqn:Hse.
  destruct (ok s6) eqn:Hok6; [|simpl; constructor].
  destruct (postInferenceProcessing resp6 r5 _ spec2)
    as [[[s7 resp7] r7] seq7] eqn:Hpo.
  destruct (ok s7) eqn:Hok7; [|simpl; constructor].
  unfold removeOnEnd. frames.
  case_bool_decide.
  - destruct (removeSequence _ _) as [s8 mgr8]. simpl. constructor.
  - simpl. constructor.
Qed.
End Paths.

(** Every trace shape keeps the lock hierarchy. *)
Lemma TraceShape_lock_order (t : list Event) :
  TraceShape t →
  lockRun nothingHeld t = Some nothingHeld
  ∧ (∀ (pre post : list Event) h, t = pre ++ post →
       lockRun nothingHeld pre = Some h → bothHeld h = true →
       ∃ pre' id m post', pre = pre' ++ [SeqLock id] ∧ post = MgrUnlock m :: post')
  ∧ (∀ pre post : list Event, t = pre ++ MgrLock :: post → pre ≠ [] →
       ∃ pre' id, pre = pre' ++ [SeqUnlock id]).
Proof.
  intros Hs. split; [|split].
  - destruct Hs; cbn [lockRun lockStep heldManager heldSequence nothingHeld];
      rewrite ?bool_decide_eq_true_2 by done; reflexivity.
  - intros pre post h Ht Hrun Hboth.
    destruct Hs; symmetry in Ht.
    all: repeat (destruct pre as [|? pre];
          [simpl in Ht; subst; run_locks Hrun;
           simplify_eq; try discriminate Hboth
          |simpl in Ht; first [discriminate Ht | injection Ht as ? Ht; subst]]).
    all: by eexists [MgrLock], _, _, _.
  - intros pre post Ht Hne. destruct Hs; symmetry in Ht.
    all: repeat (destruct pre as [|? pre];
          [simpl in Ht; simplify_eq
          |simpl in Ht; first [discriminate Ht | injection Ht as ? Ht; subst]]).
    all: try done.
    all: by eexists [_;_;_;_], _.
Qed.

(** ** The hand-off and the idle flag *)

Lemma mgr_idle42_idle : isIdle <$> sequences mgr_idle42 !! 42 = Some true.
Proof. vm_compute. reflexivity. Qed.

Lemma continue42_trace :
  trace (infer mi_ok (request_of 42 NO_CONTROL_INPUT) response0 mgr_idle42 handle0).2
  = [MgrLock; SeqLock 42; MgrUnlock mgr_idle42; HandleAcquire; SeqUnlock 42;
     HandleRelease].
Proof. vm_compute. reflexivity. Qed.

(** A CONTINUE on the idle sequence 42 passes validation and the manager,
    yet the manager state that the release after the hand-off makes
    visible still has the idle flag of 42 set. *)
Lemma idle_flag_not_cleared_at_handoff :
  ok (validate mi_ok (request_of 42 NO_CONTROL_INPUT) SequenceProcessingSpec_default).1
  = true
  ∧ ok (processRequestedSpec (mkSpec NO_CONTROL_INPUT 42) mgr_idle42).1.1 = true
  ∧ ¬ clears_idle_before_release
        (trace (infer mi_ok (request_of 42 NO_CONTROL_INPUT) response0
                  mgr_idle42 handle0).2)
        42.
Proof.
  split; [vm_compute; reflexivity|]. split; [vm_compute; reflexivity|].
  rewrite continue42_trace. intros (pre & mid & m & post & Ht & Hidle).
  symmetry in Ht.
  split_prefix Ht pre; try discriminate Ht.
  injection Ht as Ht.
  split_prefix Ht mid; try discriminate Ht.
  injection Ht as -> _. rewrite mgr_idle42_idle in Hidle. discriminate.
Qed.

(** C1 (amended): for every request whose validation and
    [processRequestedSpec] succeed, [infer] takes the manager's mutex,
    takes the mutex of the resolved Sequence, which exists, and releases
    the manager's mutex as its very next step; the manager state visible
    at that release is the one [processRequestedSpec] returned, so for
    CONTINUE and END it is the state the request found (idle flags
    included), and for START it holds the newly created Sequence. *)
Theorem infer_handoff (mi : ModelInstance) (request : PredictRequest)
  (response : PredictResponse) (mgr : SequenceManager) (handle : InferRequest)
  (s1 s2 : Status) (spec1 spec2 : SequenceProcessingSpec) (mgr2 : SequenceManager) :
  validate mi request SequenceProcessingSpec_default = (s1, spec1) →
  ok s1 = true →
  processRequestedSpec spec1 mgr = (s2, spec2, mgr2) →
  ok s2 = true →
  (∃ rest, trace (infer mi request response mgr handle).2
           = MgrLock :: SeqLock (getSequenceId spec2) :: MgrUnlock mgr2 :: rest)
  ∧ sequenceExists (getSequenceId spec2) mgr2 = true
  ∧ (getSequenceControlInput spec1 ≠ SEQUENCE_START → mgr2 = mgr)
  ∧ (getSequenceControlInput spec1 = SEQUENCE_START →
     sequences mgr2 !! getSequenceId spec2 = Some Sequence_new).
Proof.
  intros Hv Hok1 Hp Hok2.
  destruct (infer_resolved mi request response mgr handle _ _ _ _ _ Hv Hok1 Hp Hok2)
    as (rest & Ht & _).
  destruct (processRequestedSpec_ok _ _ _ _ _ Hp Hok2)
    as (_ & _ & _ & Hex & Hsame & Hnew).
  split_and!; [by eexists | done | done |].
  intros Hs. rewrite (Hnew Hs). apply lookup_insert_eq.
Qed.

Lemma infer_handoff_witness :
  ∃ rest,
    trace (infer mi_ok (request_of 42 NO_CONTROL_INPUT) response0 mgr_idle42 handle0).2
    = MgrLock :: SeqLock 42 :: MgrUnlock mgr_idle42 :: rest.
Proof.
  apply (infer_handoff mi_ok (request_of 42 NO_CONTROL_INPUT) response0
           mgr_idle42 handle0 (status_of_code OK) (status_of_code OK)
           (mkSpec NO_CONTROL_INPUT 42) (mkSpec NO_CONTROL_INPUT 42) mgr_idle42).
  - reflexivity.
  - reflexivity.
  - vm_compute. reflexivity.
  - reflexivity.
Defined.

(** ** Removal on END *)

(** C4: when a request with control END makes [infer] return OK, [infer]
    has released the Sequence's mutex, then taken the manager's mutex
    again and removed the sequence: the id, present before, is absent
    from the manager [infer] leaves, and any later request of the same
    model that validates to that id with control CONTINUE or END returns
    SEQUENCE_MISSING and leaves the manager as it is. *)
Theorem end_removes_sequence (mi : ModelInstance) (request : PredictRequest)
  (response : PredictResponse) (mgr : SequenceManager) (handle : InferRequest)
  (s1 : Status) (spec1 : SequenceProcessingSpec) :
  validate mi request SequenceProcessingSpec_default = (s1, spec1) →
  ok s1 = true →
  getSequenceControlInput spec1 = SEQUENCE_END →
  ok (infer mi request response mgr handle).1 = true →
  let r := infer mi request response mgr handle in
  let id := getSequenceId spec1 in
  trace r.2 = [MgrLock; SeqLock id; MgrUnlock mgr; HandleAcquire;
               SeqUnlock id; MgrLock; HandleRelease;
               MgrUnlock (sequenceManager r.2)]
  ∧ is_Some (sequences mgr !! id)
  ∧ sequences (sequenceManager r.2) = delete id (sequences mgr)
  ∧ sequenceExists id (sequenceManager r.2) = false
  ∧ ∀ request' response' handle' s' spec',
      validate mi request' SequenceProcessingSpec_default = (s', spec') →
      ok s' = true →
      getSequenceId spec' = id →
      getSequenceControlInput spec' ≠ SEQUENCE_START →
      let r' := infer mi request' response' (sequenceManager r.2) handle' in
      r'.1 = status_of_code SEQUENCE_MISSING
      ∧ sequenceManager r'.2 = sequenceManager r.2.
Proof.
  intros Hv Hok1 Hend Hok r id.
  destruct (processRequestedSpec spec1 mgr) as [[s2 spec2] mgr2] eqn:Hp.
  destruct (ok s2) eqn:Hok2.
  2:{ destruct (infer_unresolved mi request response mgr handle _ _ _ _ _
                  Hv Hok1 Hp Hok2) as (Hs & _). congruence. }
  destruct (processRequestedSpec_ok _ _ _ _ _ Hp Hok2)
    as (Hc & Hid & Hspec & Hex & Hsame & _).
  assert (getSequenceControlInput spec1 ≠ SEQUENCE_START) as Hns by (by rewrite Hend).
  specialize (Hsame Hns). subst mgr2.
  assert (spec2 = spec1) as ->.
  { unfold processRequestedSpec in Hp.
    rewrite bool_decide_eq_false_2 in Hp by done.
    repeat case_match; by simplify_eq. }
  destruct (infer_resolved mi request response mgr handle _ _ _ _ _ Hv Hok1 Hp Hok2)
    as (rest & Ht & [(Hf & _) | [(_ & Hne & _) | (_ & _ & -> & Hseq & Hmax)]]).
  { fold r in Hf. unfold r in Hf. congruence. }
  { done. }
  fold r in Ht, Hseq, Hmax. fold id in Ht, Hseq.
  assert (sequences (sequenceManager r.2) !! id = None) as Habsent
    by (rewrite Hseq; apply lookup_delete_eq).
  split_and!; try done.
  - unfold sequenceExists in Hex. by apply bool_decide_eq_true_1 in Hex.
  - unfold sequenceExists. rewrite Habsent. apply bool_decide_eq_false_2.
    by intros [? ?].
  - intros request' response' handle' s' spec' Hv' Hok' Hid' Hc' r'.
    assert (processRequestedSpec spec' (sequenceManager r.2)
            = (status_of_code SEQUENCE_MISSING, spec', sequenceManager r.2)) as Hp'.
    { apply processRequestedSpec_absent; [done | by rewrite Hid' | by rewrite Hid']. }
    destruct (infer_unresolved mi request' response' (sequenceManager r.2) handle'
                _ _ _ _ _ Hv' Hok' Hp' eq_refl) as (? & _ & ?).
    done.
Qed.

(** END on the live sequence 42. *)
Lemma end_removes_sequence_witness :
  sequenceExists 42
    (sequenceManager
       (infer mi_ok (request_of 42 SEQUENCE_END) response0 mgr_live42 handle0).2)
  = false.
Proof.
  apply (end_removes_sequence mi_ok (request_of 42 SEQUENCE_END) response0
           mgr_live42 handle0 (status_of_code OK) (mkSpec SEQUENCE_END 42)).
  - reflexivity.
  - reflexivity.
  - reflexivity.
  - vm_compute. reflexivity.
Defined.

(** ** The pipeline among other threads *)

Lemma andThen_ext (a b b' : Step) :
  (∀ f, b f = b' f) → ∀ f, (a >>> b) f = (a >>> b') f.
Proof. intros H f. unfold andThen. destruct (a f) as [s f']. by rewrite H. Qed.

Lemma removeOnEnd_among_alone (f : Frame) :
  removeOnEnd_among (λ m, m) f = removeOnEnd f.
Proof.
  unfold removeOnEnd_among, removeOnEnd. case_bool_decide; [|done].
  by destruct f.
Qed.

(** With no other thread at work, [infer_among] is [infer]. *)
Lemma infer_among_alone mi request response mgr handle :
  infer_among (λ m, m) mi request response mgr handle
  = infer mi request response mgr handle.
Proof.
  assert (∀ f, infer_body_among (λ m, m) mi request f = infer_body mi request f)
    as Hbody.
  { intros f. unfold infer_body_among, infer_body.
    do 12 (apply andThen_ext; intros ?). apply andThen_ext.
    apply removeOnEnd_among_alone. }
  unfold infer_among, infer. by rewrite Hbody.
Qed.

Section PathsAmong.
Variable others : SequenceManager → SequenceManager.
Variable mi : ModelInstance.
Variables (request : PredictRequest) (response : PredictResponse).
Variables (mgr : SequenceManager) (handle : InferRequest).


Lemma infer_among_trace_shape :
  TraceShape (trace (infer_among others mi request response mgr handle).2).
Proof.
  infer_among_paths others mi request response mgr handle; constructor.
Qed.

End PathsAmong.


(** ** Failures *)




(** ** Lock order *)

(** C9: every trace of [infer] obeys the hierarchy and ends with nothing
    held: the manager's mutex is only taken by a thread holding no mutex,
    a Sequence's mutex only under the manager's.  Both mutexes are held
    at one point only, right after the Sequence's mutex is taken, and the
    next event releases the manager's mutex.  Whenever the manager's
    mutex is taken a second time (the removal on END), the event just
    before is the release of the Sequence's mutex. *)
Theorem infer_lock_order (mi : ModelInstance) (request : PredictRequest)
  (response : PredictResponse) (mgr : SequenceManager) (handle : InferRequest) :
  lockRun nothingHeld (trace (infer mi request response mgr handle).2)
  = Some nothingHeld
  ∧ (∀ (pre post : list Event) (h : Held),
       trace (infer mi request response mgr handle).2 = pre ++ post →
       lockRun nothingHeld pre = Some h → bothHeld h = true →
       ∃ pre' id m post', pre = pre' ++ [SeqLock id] ∧ post = MgrUnlock m :: post')
  ∧ (∀ pre post : list Event,
       trace (infer mi request response mgr handle).2 = pre ++ MgrLock :: post →
       pre ≠ [] →
       ∃ pre' id, pre = pre' ++ [SeqUnlock id]).
Proof. apply TraceShape_lock_order, infer_trace_shape. Qed.

(** The hand-off of an END request on the live sequence 42. *)
Lemma infer_lock_order_witness :
  ∃ pre' id m post',
    [MgrLock; SeqLock 42] = pre' ++ [SeqLock id]
    ∧ [MgrUnlock mgr_live42; HandleAcquire; SeqUnlock 42; MgrLock; HandleRelease;
       MgrUnlock (mkSequenceManager ∅ 10)] = MgrUnlock m :: post'.
Proof.
  eapply (proj1 (proj2 (infer_lock_order mi_ok (request_of 42 SEQUENCE_END) response0
                          mgr_live42 handle0))
            [MgrLock; SeqLock 42]
            [MgrUnlock mgr_live42; HandleAcquire; SeqUnlock 42; MgrLock; HandleRelease;
             MgrUnlock (mkSequenceManager ∅ 10)]).
  - vm_compute. reflexivity.
  - reflexivity.
  - reflexivity.
Defined.

(** * Further properties *)

(** ** Further properties of the special inputs *)

(** X1: [extractSequenceId] returns OK exactly on a proto of shape (1)
    whose uint64_val holds one entry, and the reference parameter then
    is that entry; on every failure the reference parameter keeps the
    value it had.  The same for [extractSequenceControlInput] and
    uint32_val. *)
Theorem extract_accepts_iff (proto : TensorProto) (v0 : N) :
  ((ok (extractSequenceId proto v0).1 = true
    ↔ tensor_shape proto = [1%Z] ∧ uint64_val proto = [(extractSequenceId proto v0).2])
   ∧ (ok (extractSequenceId proto v0).1 = false → (extractSequenceId proto v0).2 = v0))
  ∧ ((ok (extractSequenceControlInput proto v0).1 = true
      ↔ tensor_shape proto = [1%Z]
        ∧ uint32_val proto = [(extractSequenceControlInput proto v0).2])
     ∧ (ok (extractSequenceControlInput proto v0).1 = false →
        (extractSequenceControlInput proto v0).2 = v0)).
Proof.
  unfold extractSequenceId, extractSequenceControlInput.
  destruct (tensor_shape proto) as [|d [|d' l]]; simpl.
  - split; (split; [split; [done | by intros [? _]] | done]).
  - destruct (decide (d = 1%Z)) as [->|Hd].
    + simpl. split.
      * destruct (uint64_val proto) as [|a [|b l]]; simpl;
          (split; [split; [done | by intros [_ ?]] | done]).
      * destruct (uint32_val proto) as [|a [|b l]]; simpl;
          (split; [split; [done | by intros [_ ?]] | done]).
    + rewrite bool_decide_eq_true_2 by congruence. simpl.
      split; (split; [split; [done | intros [? _]; congruence] | done]).
  - split; (split; [split; [done | by intros [? _]] | done]).
Qed.

(** A proto of shape (1, 1) leaves the parameter at 9. *)
Lemma extract_accepts_iff_witness :
  (extractSequenceId (mkTensorProto DT_UINT64 [1%Z; 1%Z] [] [] [5]) 9).2 = 9.
Proof.
  apply (extract_accepts_iff (mkTensorProto DT_UINT64 [1%Z; 1%Z] [] [] [5]) 9).
  reflexivity.
Defined.

(** An accepting extractor returns the plain OK status. *)
Lemma extractSequenceId_ok_inv p v0 s v :
  extractSequenceId p v0 = (s, v) → ok s = true → s = status_of_code OK.
Proof.
  unfold extractSequenceId. intros H Hok.
  repeat case_bool_decide; repeat case_match; by simplify_eq.
Qed.

Lemma extractSequenceControlInput_ok_inv p v0 s v :
  extractSequenceControlInput p v0 = (s, v) → ok s = true → s = status_of_code OK.
Proof.
  unfold extractSequenceControlInput. intros H Hok.
  repeat case_bool_decide; repeat case_match; by simplify_eq.
Qed.

(** The outcomes of [validateSpecialKeys]: a failure with the spec as it
    was, or OK with a spec made of the two supplied values. *)
Lemma validateSpecialKeys_cases request spec :
  (∃ s, ok s = false ∧ validateSpecialKeys request spec = (s, spec))
  ∨ (∃ c id, validateSpecialKeys request spec = (status_of_code OK, mkSpec c id)
       ∧ (c = NO_CONTROL_INPUT ∨ c = SEQUENCE_START ∨ c = SEQUENCE_END)
       ∧ (c ≠ SEQUENCE_START → id ≠ 0)
       ∧ suppliesValue extractSequenceId (inputs request !! "sequence_id") id
       ∧ suppliesValue extractSequenceControlInput
           (inputs request !! "sequence_control_input") c).
Proof.
  assert (∀ id c,
    suppliesValue extractSequenceId (inputs request !! "sequence_id") id →
    suppliesValue extractSequenceControlInput
      (inputs request !! "sequence_control_input") c →
    (∃ s, ok s = false ∧ validateSpecialKeys request spec = (s, spec))
    ∨ (∃ c id, validateSpecialKeys request spec = (status_of_code OK, mkSpec c id)
       ∧ (c = NO_CONTROL_INPUT ∨ c = SEQUENCE_START ∨ c = SEQUENCE_END)
       ∧ (c ≠ SEQUENCE_START → id ≠ 0)
       ∧ suppliesValue extractSequenceId (inputs request !! "sequence_id") id
       ∧ suppliesValue extractSequenceControlInput
           (inputs request !! "sequence_control_input") c)) as Hsup.
  { intros id c Hid Hc.
    rewrite (validateSpecialKeys_supplied _ spec _ _ Hid Hc).
    unfold NO_CONTROL_INPUT, SEQUENCE_START, SEQUENCE_END.
    repeat case_bool_decide; simpl;
      first [ by (left; eexists; (split; [|reflexivity]))
            | right; exists c, id; split_and!; try done; try tauto; lia ]. }
  destruct (inputs request !! "sequence_id") as [p|] eqn:Hp.
  - destruct (extractSequenceId p 0) as [s1 id] eqn:H1.
    destruct (ok s1) eqn:Hok1.
    + pose proof (extractSequenceId_ok_inv _ _ _ _ H1 Hok1) as ->.
      destruct (inputs request !! "sequence_control_input") as [q|] eqn:Hq.
      * destruct (extractSequenceControlInput q 0) as [s2 c] eqn:H2.
        destruct (ok s2) eqn:Hok2.
        -- pose proof (extractSequenceControlInput_ok_inv _ _ _ _ H2 Hok2) as ->.
           by apply (Hsup id c).
        -- left. exists s2. split; [done|].
           unfold validateSpecialKeys. rewrite Hp, H1, Hq, H2. simpl.
           by rewrite Hok2.
      * by apply (Hsup id 0).
    + left. exists s1. split; [done|].
      unfold validateSpecialKeys. rewrite Hp, H1. simpl. by rewrite Hok1.
  - destruct (inputs request !! "sequence_control_input") as [q|] eqn:Hq.
    + destruct (extractSequenceControlInput q 0) as [s2 c] eqn:H2.
      destruct (ok s2) eqn:Hok2.
      * pose proof (extractSequenceControlInput_ok_inv _ _ _ _ H2 Hok2) as ->.
        by apply (Hsup 0 c).
      * left. exists s2. split; [done|].
        unfold validateSpecialKeys. rewrite Hp, Hq, H2. simpl.
        by rewrite Hok2.
    + by apply (Hsup 0 0).
Qed.

(** X2: [validateSpecialKeys] leaves the spec as it was on every
    failure.  When it returns OK, the spec it leaves has a control among
    0, 1, 2, has a non-zero sequence id unless the control is START, and
    does not depend on what the spec held before the call. *)
Theorem validateSpecialKeys_postcondition (request : PredictRequest)
  (spec : SequenceProcessingSpec) :
  (ok (validateSpecialKeys request spec).1 = false →
     (validateSpecialKeys request spec).2 = spec)
  ∧ (ok (validateSpecialKeys request spec).1 = true →
     (getSequenceControlInput (validateSpecialKeys request spec).2 = NO_CONTROL_INPUT
      ∨ getSequenceControlInput (validateSpecialKeys request spec).2 = SEQUENCE_START
      ∨ getSequenceControlInput (validateSpecialKeys request spec).2 = SEQUENCE_END)
     ∧ (getSequenceControlInput (validateSpecialKeys request spec).2 ≠ SEQUENCE_START →
        getSequenceId (validateSpecialKeys request spec).2 ≠ 0)
     ∧ ∀ spec', validateSpecialKeys request spec' = validateSpecialKeys request spec).
Proof.
  split.
  - destruct (validateSpecialKeys_cases request spec)
      as [(s & Hs & ->) | (c & id & -> & _)]; [done | discriminate].
  - destruct (validateSpecialKeys_cases request spec)
      as [(s & Hs & ->) | (c & id & Heq & Hc & Hid & Hsi & Hsc)];
      simpl; [congruence|].
    rewrite Heq. simpl. intros _. split_and!; try done.
    intros spec'. rewrite (validateSpecialKeys_supplied _ spec' _ _ Hsi Hsc).
    rewrite (validateSpecialKeys_supplied _ spec _ _ Hsi Hsc) in Heq.
    repeat case_match; by simplify_eq.
Qed.

(** END with id 42. *)
Lemma validateSpecialKeys_postcondition_witness :
  getSequenceId
    (validateSpecialKeys (request_of 42 SEQUENCE_END) SequenceProcessingSpec_default).2
  ≠ 0.
Proof.
  apply (validateSpecialKeys_postcondition (request_of 42 SEQUENCE_END)
           SequenceProcessingSpec_default).
  - reflexivity.
  - discriminate.
Defined.

(** X3: [validateSpecialKeys] extracts the sequence id first: when the
    input sequence_id is malformed the call returns that extraction's
    status whatever the control input holds; when the id is absent or
    well formed and the input sequence_control_input is malformed, the
    call returns the control extraction's status, and the test of the id
    against 0 is not reached. *)
Theorem validateSpecialKeys_extraction_order (request : PredictRequest)
  (spec : SequenceProcessingSpec) :
  (∀ p, inputs request !! "sequence_id" = Some p →
        ok (extractSequenceId p 0).1 = false →
        validateSpecialKeys request spec = ((extractSequenceId p 0).1, spec))
  ∧ (∀ q, inputs request !! "sequence_control_input" = Some q →
          ok (extractSequenceControlInput q 0).1 = false →
          (∀ p, inputs request !! "sequence_id" = Some p →
                ok (extractSequenceId p 0).1 = true) →
          validateSpecialKeys request spec
          = ((extractSequenceControlInput q 0).1, spec)).
Proof.
  unfold validateSpecialKeys. split.
  - intros p -> Hf. destruct (extractSequenceId p 0) as [s v]. simpl in *.
    by rewrite Hf.
  - intros q -> Hf Hid.
    destruct (inputs request !! "sequence_id") as [p|].
    + specialize (Hid p eq_refl). destruct (extractSequenceId p 0) as [s v].
      simpl in *. rewrite Hid. simpl.
      destruct (extractSequenceControlInput q 0) as [s' v']. simpl in *.
      by rewrite Hf.
    + simpl. destruct (extractSequenceControlInput q 0) as [s' v']. simpl in *.
      by rewrite Hf.
Qed.

(** A sequence id without shape beside the invalid control 9. *)
Lemma validateSpecialKeys_extraction_order_witness :
  validateSpecialKeys
    (mkPredictRequest
       (<["sequence_id" := mkTensorProto DT_UINT64 [] [] [] [7]]>
          (<["sequence_control_input" := sequenceControlTensor 9]> ∅)))
    SequenceProcessingSpec_default
  = (status_of_code SPECIAL_INPUT_NO_TENSOR_SHAPE, SequenceProcessingSpec_default).
Proof.
  apply (proj1 (validateSpecialKeys_extraction_order
           (mkPredictRequest
              (<["sequence_id" := mkTensorProto DT_UINT64 [] [] [] [7]]>
                 (<["sequence_control_input" := sequenceControlTensor 9]> ∅)))
           SequenceProcessingSpec_default)
           (mkTensorProto DT_UINT64 [] [] [] [7])).
  - reflexivity.
  - reflexivity.
Defined.

(** X4: [validateSpecialKeys] reads no input but the two of
    [SPECIAL_INPUT_NAMES]: adding, replacing or removing an input of any
    other name changes neither the status nor the spec. *)
Theorem validateSpecialKeys_reads_special_inputs_only (request : PredictRequest)
  (spec : SequenceProcessingSpec) (name : string) (proto : TensorProto) :
  name ∉ SPECIAL_INPUT_NAMES →
  validateSpecialKeys (mkPredictRequest (<[name := proto]> (inputs request))) spec
  = validateSpecialKeys request spec
  ∧ validateSpecialKeys (mkPredictRequest (delete name (inputs request))) spec
    = validateSpecialKeys request spec.
Proof.
  intros Hn. unfold SPECIAL_INPUT_NAMES in Hn.
  assert (name ≠ "sequence_id" ∧ name ≠ "sequence_control_input") as [H1 H2]
    by set_solver.
  unfold validateSpecialKeys. simpl.
  by rewrite !lookup_insert_ne, !lookup_delete_ne.
Qed.

(** A model input named b beside the sequence id 42. *)
Lemma validateSpecialKeys_reads_special_inputs_only_witness :
  validateSpecialKeys
    (mkPredictRequest
       (<["b" := mkTensorProto DT_FLOAT [1%Z; 10%Z] [] [] []]>
          (inputs (request_of 42 NO_CONTROL_INPUT))))
    SequenceProcessingSpec_default
  = validateSpecialKeys (request_of 42 NO_CONTROL_INPUT) SequenceProcessingSpec_default.
Proof.
  apply (validateSpecialKeys_reads_special_inputs_only
           (request_of 42 NO_CONTROL_INPUT) SequenceProcessingSpec_default
           "b" (mkTensorProto DT_FLOAT [1%Z; 10%Z] [] [] [])).
  vm_compute. discriminate.
Defined.

(** ** Further properties of pre-inference processing *)

(** The restore loop stops at the first slot without a saved payload. *)
Lemma restoreStates_stops (saved : gmap string Tensor)
  (pre : list VariableState) (st : VariableState) (post : list VariableState) :
  Forall (λ s, is_Some (saved !! get_name s)) pre →
  saved !! get_name st = None →
  restoreStates saved (pre ++ st :: post)
  = (status_of_code INTERNAL_ERROR,
     ((λ s, set_state (default [] (saved !! get_name s)) s) <$> pre) ++ st :: post).
Proof.
  intros Hpre Hst. induction Hpre as [|s pre [t Ht] _ IH]; simpl.
  - by rewrite Hst.
  - by rewrite Ht, IH.
Qed.

(** X5: on CONTINUE or END, when the first exposed slot whose name the
    Sequence has not saved comes after the slots [pre],
    [preInferenceProcessing] returns INTERNAL_ERROR and leaves the handle
    half restored: the slots of [pre] hold their saved payloads, the
    missing slot and all slots after it hold what they held before. *)
Theorem preInferenceProcessing_partial_restore (inferRequest : InferRequest)
  (sequence : Sequence) (spec : SequenceProcessingSpec)
  (pre : list VariableState) (st : VariableState) (post : list VariableState) :
  getSequenceControlInput spec ≠ SEQUENCE_START →
  query_state inferRequest = pre ++ st :: post →
  (∀ s, s ∈ pre → is_Some (getMemoryState sequence !! get_name s)) →
  getMemoryState sequence !! get_name st = None →
  preInferenceProcessing inferRequest sequence spec
  = (status_of_code INTERNAL_ERROR,
     with_states
       (((λ s, set_state (default [] (getMemoryState sequence !! get_name s)) s)
           <$> pre) ++ st :: post)
       inferRequest).
Proof.
  intros Hc Hq Hpre Hst. unfold preInferenceProcessing.
  rewrite bool_decide_eq_false_2 by done.
  rewrite Hq, restoreStates_stops; [done | by apply Forall_forall | done].
Qed.

(** Slots h, c, k against a Sequence that saved only h. *)
Lemma preInferenceProcessing_partial_restore_witness :
  preInferenceProcessing
    (mkInferRequest [mkVariableState "h" [1%Z] [0%Z]; mkVariableState "c" [2%Z] [0%Z];
                     mkVariableState "k" [3%Z] [0%Z]] ∅)
    (mkSequence {[ "h" := [5%Z] ]} false) (mkSpec NO_CONTROL_INPUT 42)
  = (status_of_code INTERNAL_ERROR,
     mkInferRequest [mkVariableState "h" [5%Z] [0%Z]; mkVariableState "c" [2%Z] [0%Z];
                     mkVariableState "k" [3%Z] [0%Z]] ∅).
Proof.
  rewrite (preInferenceProcessing_partial_restore
           (mkInferRequest [mkVariableState "h" [1%Z] [0%Z]; mkVariableState "c" [2%Z] [0%Z];
                            mkVariableState "k" [3%Z] [0%Z]] ∅)
           (mkSequence {[ "h" := [5%Z] ]} false) (mkSpec NO_CONTROL_INPUT 42)
           [mkVariableState "h" [1%Z] [0%Z]] (mkVariableState "c" [2%Z] [0%Z])
           [mkVariableState "k" [3%Z] [0%Z]]).
  - vm_compute. reflexivity.
  - discriminate.
  - reflexivity.
  - intros s Hs. apply list_elem_of_singleton in Hs as ->. vm_compute. by eexists.
  - reflexivity.
Defined.

(** The restore loop keeps names and defaults. *)
Lemma restoreStates_layout (saved : gmap string Tensor) (l : list VariableState) :
  same_layout l (restoreStates saved l).2.
Proof.
  induction l as [|st l IH]; simpl; [constructor|].
  destruct (saved !! get_name st) as [t|].
  - destruct (restoreStates saved l) as [s l']. simpl in *.
    constructor; [done | done].
  - simpl. apply Forall2_same_length_lookup_2; [done|].
    intros i a b Ha Hb. by simplify_eq.
Qed.

(** X6: whatever the control and whatever the outcome,
    [preInferenceProcessing] keeps the number and order of the handle's
    state slots, their names and their defaults, and the handle's input
    and output tensors; only current payloads change. *)
Theorem preInferenceProcessing_keeps_layout (inferRequest : InferRequest)
  (sequence : Sequence) (spec : SequenceProcessingSpec) :
  same_layout (query_state inferRequest)
    (query_state (preInferenceProcessing inferRequest sequence spec).2)
  ∧ tensors (preInferenceProcessing inferRequest sequence spec).2
    = tensors inferRequest.
Proof.
  unfold preInferenceProcessing. case_bool_decide; simpl.
  - split; [|done]. unfold same_layout.
    induction (query_state inferRequest); constructor; done.
  - pose proof (restoreStates_layout (getMemoryState sequence)
                  (query_state inferRequest)).
    by destruct (restoreStates _ _).
Qed.

(** The restore loop reads names only, and the saved map only at them. *)
Lemma restoreStates_same_layout (saved saved' : gmap string Tensor)
  (l l' : list VariableState) :
  same_layout l l' →
  (∀ s, s ∈ l → saved' !! get_name s = saved !! get_name s) →
  (restoreStates saved l).1 = (restoreStates saved' l').1
  ∧ (ok (restoreStates saved l).1 = true →
     (restoreStates saved l).2 = (restoreStates saved' l').2).
Proof.
  intros Hl. induction Hl as [|a b l l' [Hn Hd] _ IH]; intros Hs; simpl; [done|].
  rewrite <- Hn, (Hs a) by apply list_elem_of_here.
  destruct (saved !! get_name a) as [t|]; [|done].
  destruct IH as [IH1 IH2].
  { intros s Hin. apply Hs. by apply list_elem_of_further. }
  destruct (restoreStates saved l) as [s1 r1], (restoreStates saved' l') as [s2 r2].
  simpl in *. split; [done|]. intros Hok. rewrite (IH2 Hok).
  f_equal. unfold set_state. by rewrite Hn, Hd.
Qed.

(** Resetting forgets the current payloads. *)
Lemma reset_same_layout (l l' : list VariableState) :
  same_layout l l' → reset <$> l = reset <$> l'.
Proof.
  induction 1 as [|a b l l' [Hn Hd] _ IH]; [done|].
  rewrite !fmap_cons, IH. f_equal. unfold reset. by rewrite Hn, Hd.
Qed.

(** X7: the outcome of [preInferenceProcessing] does not depend on the
    payloads the handle held before, nor on entries the Sequence saved
    under names the handle does not expose, nor on the idle flag: two
    handles with the same slot layout and tensors, with two Sequences
    that agree on the exposed names, get the same status, and when that
    status is OK the same handle.  No state of the request that used the
    handle before survives a successful call. *)
Theorem preInferenceProcessing_overwrites_handle (inferRequest inferRequest' : InferRequest)
  (sequence sequence' : Sequence) (spec : SequenceProcessingSpec) :
  same_layout (query_state inferRequest) (query_state inferRequest') →
  tensors inferRequest = tensors inferRequest' →
  (∀ s, s ∈ query_state inferRequest →
        getMemoryState sequence' !! get_name s = getMemoryState sequence !! get_name s) →
  (preInferenceProcessing inferRequest sequence spec).1
  = (preInferenceProcessing inferRequest' sequence' spec).1
  ∧ (ok (preInferenceProcessing inferRequest sequence spec).1 = true →
     preInferenceProcessing inferRequest sequence spec
     = preInferenceProcessing inferRequest' sequence' spec).
Proof.
  intros Hl Ht Hs. unfold preInferenceProcessing. case_bool_decide; simpl.
  - split; [done|]. intros _. unfold with_states.
    by rewrite Ht, (reset_same_layout _ _ Hl).
  - destruct (restoreStates_same_layout _ _ _ _ Hl Hs) as [H1 H2].
    destruct (restoreStates (getMemoryState sequence) _) as [s1 r1],
             (restoreStates (getMemoryState sequence') _) as [s2 r2].
    simpl in *. split; [done|]. intros Hok. rewrite (H2 Hok), H1.
    unfold with_states. by rewrite Ht.
Qed.

(** Two handles with slot h and different leftovers. *)
Lemma preInferenceProcessing_overwrites_handle_witness :
  preInferenceProcessing
    (mkInferRequest [mkVariableState "h" [1%Z] [0%Z]] ∅)
    (mkSequence {[ "h" := [5%Z] ]} false) (mkSpec NO_CONTROL_INPUT 42)
  = preInferenceProcessing
      (mkInferRequest [mkVariableState "h" [77%Z; 78%Z] [0%Z]] ∅)
      (mkSequence {[ "h" := [5%Z]; "old" := [9%Z] ]} true) (mkSpec NO_CONTROL_INPUT 42).
Proof.
  apply (preInferenceProcessing_overwrites_handle
           (mkInferRequest [mkVariableState "h" [1%Z] [0%Z]] ∅)
           (mkInferRequest [mkVariableState "h" [77%Z; 78%Z] [0%Z]] ∅)
           (mkSequence {[ "h" := [5%Z] ]} false)
           (mkSequence {[ "h" := [5%Z]; "old" := [9%Z] ]} true)
           (mkSpec NO_CONTROL_INPUT 42)).
  - repeat constructor.
  - reflexivity.
  - intros s Hs. apply list_elem_of_singleton in Hs as ->. vm_compute. reflexivity.
  - reflexivity.
Defined.

(** Restoring twice is restoring once. *)
Lemma restoreStates_idempotent (saved : gmap string Tensor) (l : list VariableState) :
  restoreStates saved (restoreStates saved l).2 = restoreStates saved l.
Proof.
  induction l as [|st l IH]; simpl; [done|].
  destruct (saved !! get_name st) as [t|] eqn:Ht.
  - destruct (restoreStates saved l) as [s l']. simpl in *.
    rewrite Ht, IH. done.
  - simpl. by rewrite Ht.
Qed.

(** X8: running [preInferenceProcessing] again on the handle it left,
    with the same Sequence and spec, returns the same status and the same
    handle, also after a failure. *)
Theorem preInferenceProcessing_idempotent (inferRequest : InferRequest)
  (sequence : Sequence) (spec : SequenceProcessingSpec) :
  preInferenceProcessing
    (preInferenceProcessing inferRequest sequence spec).2 sequence spec
  = preInferenceProcessing inferRequest sequence spec.
Proof.
  unfold preInferenceProcessing. case_bool_decide; simpl.
  - unfold with_states. simpl. do 2 f_equal.
    rewrite <- list_fmap_compose. apply list_fmap_ext. intros i st _. done.
  - pose proof (restoreStates_idempotent (getMemoryState sequence)
                  (query_state inferRequest)) as Hidem.
    destruct (restoreStates (getMemoryState sequence) (query_state inferRequest))
      as [s l]. simpl in *. by rewrite Hidem.
Qed.

(** ** Saving and restoring *)

(** Restoring from a map that holds the payloads of [l], on the layout of [l]. *)
Lemma restoreStates_saved_payloads (saved : gmap string Tensor)
  (l l' : list VariableState) :
  same_layout l l' →
  (∀ a, a ∈ l → saved !! get_name a = Some (get_state a)) →
  restoreStates saved l'
  = (status_of_code OK, zip_with (λ a b, set_state (get_state a) b) l l').
Proof.
  intros Hl. induction Hl as [|a b l l' [Hn Hd] _ IH]; intros Hs; simpl; [done|].
  rewrite <- Hn, (Hs a) by apply list_elem_of_here.
  rewrite IH; [done|]. intros c Hc. apply Hs. by apply list_elem_of_further.
Qed.

Lemma zip_with_set_state_self (l : list VariableState) :
  zip_with (λ a b, set_state (get_state a) b) l l = l.
Proof. induction l as [|[n s d] l IH]; simpl; [done|]. by rewrite IH. Qed.

Lemma same_layout_refl (l : list VariableState) : same_layout l l.
Proof. induction l; constructor; done. Qed.

(** X9: let the handle's slot names be distinct and
    [postInferenceProcessing] save its state into the Sequence (control
    other than END).  Then [preInferenceProcessing] of a CONTINUE or END
    request on that Sequence succeeds on every handle of the same layout
    and gives each slot the payload saved from the slot of that position;
    on the saving handle itself it returns the handle unchanged. *)
Theorem save_then_restore (response : PredictResponse)
  (inferRequest inferRequest' : InferRequest) (sequence : Sequence)
  (spec spec' : SequenceProcessingSpec) :
  NoDup (get_name <$> query_state inferRequest) →
  getSequenceControlInput spec ≠ SEQUENCE_END →
  getSequenceControlInput spec' ≠ SEQUENCE_START →
  (same_layout (query_state inferRequest) (query_state inferRequest') →
   preInferenceProcessing inferRequest'
     (postInferenceProcessing response inferRequest sequence spec).2 spec'
   = (status_of_code OK,
      with_states
        (zip_with (λ a b, set_state (get_state a) b)
           (query_state inferRequest) (query_state inferRequest'))
        inferRequest'))
  ∧ preInferenceProcessing
      (postInferenceProcessing response inferRequest sequence spec).1.2
      (postInferenceProcessing response inferRequest sequence spec).2 spec'
    = (status_of_code OK, inferRequest).
Proof.
  intros Hnd Hc Hc'.
  assert (∀ a, a ∈ query_state inferRequest →
            getMemoryState (postInferenceProcessing response inferRequest sequence spec).2
              !! get_name a = Some (get_state a)) as Hsaved.
  { intros a Ha. unfold postInferenceProcessing.
    rewrite bool_decide_eq_false_2 by done. simpl.
    apply elem_of_list_to_map_1.
    - by rewrite <- list_fmap_compose.
    - apply list_elem_of_fmap. by exists a. }
  assert (∀ r', same_layout (query_state inferRequest) (query_state r') →
    preInferenceProcessing r'
      (postInferenceProcessing response inferRequest sequence spec).2 spec'
    = (status_of_code OK,
       with_states
         (zip_with (λ a b, set_state (get_state a) b)
            (query_state inferRequest) (query_state r')) r')) as Hgen.
  { intros r' Hl. unfold preInferenceProcessing at 1.
    rewrite bool_decide_eq_false_2 by done.
    by rewrite (restoreStates_saved_payloads _ _ _ Hl Hsaved). }
  split; [apply Hgen|].
  assert ((postInferenceProcessing response inferRequest sequence spec).1.2
          = inferRequest) as ->.
  { unfold postInferenceProcessing. by rewrite bool_decide_eq_false_2. }
  rewrite (Hgen inferRequest (same_layout_refl _)), zip_with_set_state_self.
  by destruct inferRequest.
Qed.

(** State saved from one handle and restored on another. *)
Lemma save_then_restore_witness :
  preInferenceProcessing
    (mkInferRequest [mkVariableState "h" [77%Z] [0%Z]; mkVariableState "c" [78%Z] [0%Z]] ∅)
    (postInferenceProcessing response0
       (mkInferRequest [mkVariableState "h" [1%Z] [0%Z]; mkVariableState "c" [2%Z] [0%Z]] ∅)
       Sequence_new (mkSpec SEQUENCE_START 7)).2
    (mkSpec NO_CONTROL_INPUT 7)
  = (status_of_code OK,
     mkInferRequest [mkVariableState "h" [1%Z] [0%Z]; mkVariableState "c" [2%Z] [0%Z]] ∅).
Proof.
  apply (proj1 (save_then_restore response0
           (mkInferRequest [mkVariableState "h" [1%Z] [0%Z]; mkVariableState "c" [2%Z] [0%Z]] ∅)
           (mkInferRequest [mkVariableState "h" [77%Z] [0%Z]; mkVariableState "c" [78%Z] [0%Z]] ∅)
           Sequence_new (mkSpec SEQUENCE_START 7) (mkSpec NO_CONTROL_INPUT 7)
           ltac:(apply (bool_decide_unpack _); vm_compute; exact I)
           ltac:(discriminate) ltac:(discriminate))).
  repeat constructor.
Defined.

(** ** Further properties of the pipeline *)



(** X11: whenever [infer] returns OK, the response has an output named
    sequence_id of type unsigned-64 whose last dimension is 1 and whose
    last value is the resolved sequence id; that id is not 0, and is the
    id validation extracted from the request when that was not 0. *)
Theorem infer_success_sequence_id (mi : ModelInstance) (request : PredictRequest)
  (response : PredictResponse) (mgr : SequenceManager) (handle : InferRequest) :
  ok (infer mi request response mgr handle).1 = true →
  ∃ p,
    outputs (responseProto (infer mi request response mgr handle).2)
      !! "sequence_id" = Some p
    ∧ dtype p = DT_UINT64
    ∧ last (tensor_shape p) = Some 1%Z
    ∧ last (uint64_val p) = Some (getSequenceId (resolvedSpec mi request mgr))
    ∧ getSequenceId (resolvedSpec mi request mgr) ≠ 0
    ∧ (getSequenceId (validate mi request SequenceProcessingSpec_default).2 ≠ 0 →
       getSequenceId (resolvedSpec mi request mgr)
       = getSequenceId (validate mi request SequenceProcessingSpec_default).2).
Proof.
  unfold resolvedSpec.
  infer_paths mi request response mgr handle;
    try (intros; congruence); try (by intros [=]).
  all: intros _.
  all: destruct (processRequestedSpec_ok _ _ _ _ _ Hp Hok2) as (_ & Hid & Hsame & _).
  all: unfold postInferenceProcessing in Hpost.
  all: eexists; split_and!; try done.
  all: try (case_bool_decide; simplify_eq; cbn; apply lookup_insert_eq).
  all: try (cbn; by rewrite last_snoc).
  all: try reflexivity.
  all: intros H0; by rewrite (Hsame H0).
Qed.

(** CONTINUE on sequence 42 of a model with an output named sequence_id. *)
Lemma infer_success_sequence_id_witness :
  ∃ p,
    outputs (responseProto
               (infer mi_output_named_sequence_id (request_of 42 NO_CONTROL_INPUT)
                  response0 mgr_live42 handle0).2) !! "sequence_id" = Some p
    ∧ dtype p = DT_UINT64
    ∧ last (tensor_shape p) = Some 1%Z
    ∧ last (uint64_val p) = Some 42
    ∧ 42 ≠ 0
    ∧ (42 ≠ 0 → 42 = 42).
Proof.
  apply (infer_success_sequence_id mi_output_named_sequence_id
           (request_of 42 NO_CONTROL_INPUT) response0 mgr_live42 handle0).
  vm_compute. reflexivity.
Defined.

(** The modelled manager touches the entry of the resolved id only. *)
Lemma processRequestedSpec_frame spec mgr :
  maxSequenceNumber (processRequestedSpec spec mgr).2 = maxSequenceNumber mgr
  ∧ ∀ id, id ≠ getSequenceId (processRequestedSpec spec mgr).1.2 →
          sequences (processRequestedSpec spec mgr).2 !! id = sequences mgr !! id.
Proof.
  unfold processRequestedSpec.
  repeat case_bool_decide; repeat case_match; simpl; split; try done.
  all: intros id Hid; by rewrite lookup_insert_ne.
Qed.

(** X12: on every path [infer] leaves the population bound as it was
    and every entry of the sequence table other than that of the resolved
    id as it was. *)
Theorem infer_touches_one_sequence (mi : ModelInstance) (request : PredictRequest)
  (response : PredictResponse) (mgr : SequenceManager) (handle : InferRequest) :
  maxSequenceNumber (sequenceManager (infer mi request response mgr handle).2)
  = maxSequenceNumber mgr
  ∧ ∀ id, id ≠ getSequenceId (resolvedSpec mi request mgr) →
          sequences (sequenceManager (infer mi request response mgr handle).2) !! id
          = sequences mgr !! id.
Proof.
  unfold resolvedSpec.
  pose proof (processRequestedSpec_frame
                (validate mi request SequenceProcessingSpec_default).2 mgr) as Hfr.
  revert Hfr.
  infer_paths mi request response mgr handle; rewrite ?Hp; cbn; try done.
  - intros [Hm Hs]. split; [done|]. intros id Hid.
    rewrite lookup_delete_ne, lookup_insert_ne by done. by apply Hs.
  - intros [Hm Hs]. split; [done|]. intros id Hid.
    rewrite lookup_insert_ne by done. by apply Hs.
Qed.


(** The table entry of sequence 7 beside the CONTINUE on 42. *)
Lemma infer_touches_one_sequence_witness :
  sequences
    (sequenceManager
       (infer mi_ok (request_of 42 NO_CONTROL_INPUT) response0 mgr_live42 handle0).2)
    !! 7
  = sequences mgr_live42 !! 7.
Proof.
  apply (proj2 (infer_touches_one_sequence mi_ok (request_of 42 NO_CONTROL_INPUT)
                  response0 mgr_live42 handle0) 7).
  vm_compute. discriminate.
Defined.


(** ** The handle *)

(** Every trace shape takes the handle at most once, under the
    Sequence's mutex alone, and gives it back once. *)
Lemma TraceShape_handle (t : list Event) :
  TraceShape t →
  (∀ pre post : list Event, t = pre ++ HandleAcquire :: post →
     (∃ id, lockRun nothingHeld pre = Some (mkHeld false (Some id)))
     ∧ (HandleAcquire ∉ pre) ∧ (HandleAcquire ∉ post)
     ∧ (HandleRelease ∉ pre)
     ∧ ∃ mid post', post = mid ++ HandleRelease :: post'
                    ∧ (HandleRelease ∉ mid) ∧ (HandleRelease ∉ post'))
  ∧ countEvents isHandleRelease t = countEvents isHandleAcquire t
  ∧ (countEvents isHandleAcquire t ≤ 1)%nat.
Proof.
  intros Hs. split; [|destruct Hs; cbn; split; lia].
  intros pre post Ht. destruct Hs; symmetry in Ht.
  all: repeat (destruct pre as [|? pre];
        [simpl in Ht; simplify_eq
        |simpl in Ht; first [discriminate Ht | injection Ht as ? Ht; subst]]).
  all: split_and!; [by eexists | ..].
  all: try (intros H; not_in_list H).
  - exists [], [SeqUnlock id]. split_and!; [done | |]; intros H; not_in_list H.
  - exists [SeqUnlock id], []. split_and!; [done | |]; intros H; not_in_list H.
  - exists [SeqUnlock id; MgrLock], [MgrUnlock m'].
    split_and!; [done | |]; intros H; not_in_list H.
Qed.

(** X14: in every trace of [infer], whatever the other threads do, the
    handle is acquired at most once, at a point where the thread holds
    the mutex of a Sequence and not the manager's; after that it is
    released exactly once; and the trace has as many releases as
    acquisitions, so no handle is released that was not acquired. *)
Theorem infer_handle_scoped (others : SequenceManager → SequenceManager)
  (mi : ModelInstance) (request : PredictRequest)
  (response : PredictResponse) (mgr : SequenceManager) (handle : InferRequest) :
  (∀ pre post : list Event,
     trace (infer_among others mi request response mgr handle).2
     = pre ++ HandleAcquire :: post →
     (∃ id, lockRun nothingHeld pre = Some (mkHeld false (Some id)))
     ∧ (HandleAcquire ∉ pre) ∧ (HandleAcquire ∉ post)
     ∧ (HandleRelease ∉ pre)
     ∧ ∃ mid post', post = mid ++ HandleRelease :: post'
                    ∧ (HandleRelease ∉ mid) ∧ (HandleRelease ∉ post'))
  ∧ countEvents isHandleRelease
      (trace (infer_among others mi request response mgr handle).2)
    = countEvents isHandleAcquire
        (trace (infer_among others mi request response mgr handle).2)
  ∧ (countEvents isHandleAcquire
       (trace (infer_among others mi request response mgr handle).2) ≤ 1)%nat.
Proof. apply TraceShape_handle, infer_among_trace_shape. Qed.


(** An END on sequence 42 that another request ends first. *)
Lemma infer_handle_scoped_witness :
  trace (infer_among (ended_by_another 42) mi_ok (request_of 42 SEQUENCE_END)
           response0 mgr_live42 handle0).2
  = [MgrLock; SeqLock 42; MgrUnlock mgr_live42]
      ++ HandleAcquire
      :: [SeqUnlock 42; MgrLock; HandleRelease;
          MgrUnlock (ended_by_another 42 mgr_live42)]
  ∧ (∃ id, lockRun nothingHeld [MgrLock; SeqLock 42; MgrUnlock mgr_live42]
           = Some (mkHeld false (Some id)))
  ∧ ∃ mid post',
      [SeqUnlock 42; MgrLock; HandleRelease;
       MgrUnlock (ended_by_another 42 mgr_live42)]
      = mid ++ HandleRelease :: post'
      ∧ (HandleRelease ∉ mid) ∧ (HandleRelease ∉ post').
Proof.
  assert (trace (infer_among (ended_by_another 42) mi_ok (request_of 42 SEQUENCE_END)
                   response0 mgr_live42 handle0).2
          = [MgrLock; SeqLock 42; MgrUnlock mgr_live42]
              ++ HandleAcquire
              :: [SeqUnlock 42; MgrLock; HandleRelease;
                  MgrUnlock (ended_by_another 42 mgr_live42)]) as Ht
    by (vm_compute; reflexivity).
  destruct (proj1 (infer_handle_scoped (ended_by_another 42) mi_ok
                     (request_of 42 SEQUENCE_END) response0 mgr_live42 handle0)
              _ _ Ht) as (Hheld & _ & _ & _ & Hrel).
  exact (conj Ht (conj Hheld Hrel)).
Defined.

(** X15: once the handle was acquired, an [infer] that fails without
    having taken the manager's mutex again gives the handle back and then
    releases the Sequence's mutex, and these are its last two events; a
    successful [infer] on a control other than END releases the
    Sequence's mutex first and gives the handle back last; a successful
    END takes the manager's mutex again; and whenever [infer] has taken
    it again, the removal succeeding or not, the request is an END and
    the handle is given back while the manager's mutex is held, before
    that mutex is released. *)
Theorem infer_release_order (others : SequenceManager → SequenceManager)
  (mi : ModelInstance) (request : PredictRequest)
  (response : PredictResponse) (mgr : SequenceManager) (handle : InferRequest) :
  HandleAcquire ∈ trace (infer_among others mi request response mgr handle).2 →
  (ok (infer_among others mi request response mgr handle).1 = false →
   ¬ relocks (trace (infer_among others mi request response mgr handle).2) →
     ∃ a id, trace (infer_among others mi request response mgr handle).2
             = a ++ [HandleRelease; SeqUnlock id])
  ∧ (ok (infer_among others mi request response mgr handle).1 = true →
     getSequenceControlInput (resolvedSpec mi request mgr) ≠ SEQUENCE_END →
     ∃ a id, trace (infer_among others mi request response mgr handle).2
             = a ++ [SeqUnlock id; HandleRelease])
  ∧ (ok (infer_among others mi request response mgr handle).1 = true →
     getSequenceControlInput (resolvedSpec mi request mgr) = SEQUENCE_END →
     relocks (trace (infer_among others mi request response mgr handle).2))
  ∧ (relocks (trace (infer_among others mi request response mgr handle).2) →
     getSequenceControlInput (resolvedSpec mi request mgr) = SEQUENCE_END
     ∧ ∃ a id m, trace (infer_among others mi request response mgr handle).2
                 = a ++ [SeqUnlock id; MgrLock; HandleRelease; MgrUnlock m]
                 ∧ lockRun nothingHeld (a ++ [SeqUnlock id; MgrLock])
                   = Some (mkHeld true None)).
Proof.
  unfold resolvedSpec.
  infer_among_paths others mi request response mgr handle;
    rewrite ?Hp; cbn [fst snd].
  all: try (intros H; not_in_list H).
  all: intros _; split_and!.
  all: try (intros; congruence); try (by intros [=]).
  all: try (intros Hr; no_relock Hr).
  all: try (intros _ _; by eexists [_; _; _; _], _).
  all: try (intros _ _; by eexists [_; _; _; _], _, _).
  all: try (intros _ Hnr; destruct Hnr; by eexists [_; _; _; _], _, _).
  all: intros _; (split; [done|]); eexists [_; _; _; _], _, _;
    (split; [reflexivity|]);
    cbn [app lockRun lockStep heldManager heldSequence nothingHeld];
    by rewrite bool_decide_eq_true_2.
Qed.

(** A START whose inference step fails, and an END on sequence 42 that
    another request ends first. *)
Lemma infer_release_order_witness :
  (∃ a id,
     trace (infer_among (ended_by_another 7) mi_failing_inference
              (request_of 7 SEQUENCE_START) response0 mgr_live42 handle0).2
     = a ++ [HandleRelease; SeqUnlock id])
  ∧ ∃ a id m,
      trace (infer_among (ended_by_another 42) mi_ok (request_of 42 SEQUENCE_END)
               response0 mgr_live42 handle0).2
      = a ++ [SeqUnlock id; MgrLock; HandleRelease; MgrUnlock m]
      ∧ lockRun nothingHeld (a ++ [SeqUnlock id; MgrLock])
        = Some (mkHeld true None).
Proof.
  split.
  - apply (infer_release_order (ended_by_another 7) mi_failing_inference
             (request_of 7 SEQUENCE_START) response0 mgr_live42 handle0).
    + vm_compute. do 3 apply list_elem_of_further. apply list_elem_of_here.
    + vm_compute. reflexivity.
    + intros Hr. vm_compute in Hr. no_relock Hr.
  - apply (infer_release_order (ended_by_another 42) mi_ok
             (request_of 42 SEQUENCE_END) response0 mgr_live42 handle0).
    + vm_compute. do 3 apply list_elem_of_further. apply list_elem_of_here.
    + by exists [MgrLock; SeqLock 42; MgrUnlock mgr_live42; HandleAcquire], 42,
        [HandleRelease; MgrUnlock (ended_by_another 42 mgr_live42)].
Defined.

(** ** Loading, reloading and retiring *)

(** X16: [loadModel] returns the instance as the base class's load left
    it.  When that load fails, its status is returned and no call is made
    on the viewer.  When it succeeds, the viewer is called only if the
    cleanup flag is set, once, to register the instance's name, version
    and sequence manager, and [loadModel] is OK exactly when the viewer
    accepts.  The flag is assigned from the configuration before the
    load: if the base class's load does not touch it, it holds the
    configured value afterwards even when the load failed, and with
    cleanup not configured the viewer is never called. *)
Theorem loadModel_registration {Base Param : Type}
  (env : Lifecycle.Environment Base Param) (config : Lifecycle.ModelConfig)
  (i : Lifecycle.Instance Base) (calls : list Lifecycle.ViewerCall) :
  let loaded :=
    Lifecycle.base_loadModel env config
      (Lifecycle.set_autoCleanupEnabled
         (Lifecycle.getIdleSequenceCleanup config) i) in
  (Lifecycle.loadModel env config i calls).1.2 = loaded.2
  ∧ (ok loaded.1 = false →
     Lifecycle.loadModel env config i calls = (loaded.1, loaded.2, calls))
  ∧ (ok loaded.1 = true → Lifecycle.autoCleanupEnabled loaded.2 = false →
     Lifecycle.loadModel env config i calls = (status_of_code OK, loaded.2, calls))
  ∧ (ok loaded.1 = true → Lifecycle.autoCleanupEnabled loaded.2 = true →
     (Lifecycle.loadModel env config i calls).2
     = calls ++ [Lifecycle.registerForCleanup
                   (Lifecycle.instanceName env (Lifecycle.base loaded.2))
                   (Lifecycle.instanceVersion env (Lifecycle.base loaded.2))
                   (Lifecycle.sequenceManager loaded.2)]
     ∧ (ok (Lifecycle.loadModel env config i calls).1.1
        = ok (Lifecycle.viewer env calls
                (Lifecycle.registerForCleanup
                   (Lifecycle.instanceName env (Lifecycle.base loaded.2))
                   (Lifecycle.instanceVersion env (Lifecycle.base loaded.2))
                   (Lifecycle.sequenceManager loaded.2)))))
  ∧ ((∀ j, Lifecycle.autoCleanupEnabled (Lifecycle.base_loadModel env config j).2
           = Lifecycle.autoCleanupEnabled j) →
     Lifecycle.autoCleanupEnabled (Lifecycle.loadModel env config i calls).1.2
     = Lifecycle.getIdleSequenceCleanup config
     ∧ (Lifecycle.getIdleSequenceCleanup config = false →
        (Lifecycle.loadModel env config i calls).2 = calls)).
Proof.
  intros loaded.
  assert ((Lifecycle.loadModel env config i calls).1.2 = loaded.2) as Hinst.
  { unfold Lifecycle.loadModel. fold loaded. destruct loaded as [st j]. simpl.
    destruct (ok st); simpl; [|done].
    destruct (Lifecycle.autoCleanupEnabled j); [|done].
    unfold Lifecycle.call. by destruct (ok _). }
  split; [done|]. rewrite Hinst. clear Hinst.
  unfold Lifecycle.loadModel. fold loaded.
  destruct loaded as [st j] eqn:Hl. simpl.
  split_and!.
  - by intros ->.
  - by intros -> ->.
  - intros -> ->. simpl. unfold Lifecycle.call.
    destruct (ok (Lifecycle.viewer _ _ _)) eqn:Hv; simpl.
    + split; reflexivity.
    + split; [reflexivity | exact Hv].
  - intros Hkeep.
    assert (Lifecycle.autoCleanupEnabled j = Lifecycle.getIdleSequenceCleanup config)
      as Hflag.
    { pose proof (Hkeep (Lifecycle.set_autoCleanupEnabled
                           (Lifecycle.getIdleSequenceCleanup config) i)) as Hk.
      fold loaded in Hk. subst loaded. by rewrite Hl in Hk. }
    split; [done|].
    intros Hoff. rewrite Hflag, Hoff. by destruct (ok st).
Qed.

(** X17: [reloadModel] unregisters an instance whose cleanup flag is set
    and whose state is AVAILABLE before anything else.  When the viewer
    refuses, the call ends there with the instance untouched.  When the
    base class's reload then fails, the call ends with the instance
    unregistered and not registered again.  Only a successful call
    assigns the flag from the new configuration, and its viewer calls are
    the unregistration, if one was due, followed by a registration of the
    reloaded instance, if the new configuration asks for cleanup. *)
Theorem reloadModel_unregisters_first {Base Param : Type}
  (env : Lifecycle.Environment Base Param) (config : Lifecycle.ModelConfig)
  (parameter : Param) (i : Lifecycle.Instance Base)
  (calls : list Lifecycle.ViewerCall) :
  let unregister :=
    Lifecycle.unregisterFromCleanup
      (Lifecycle.instanceName env (Lifecycle.base i))
      (Lifecycle.instanceVersion env (Lifecycle.base i)) in
  let registered :=
    Lifecycle.autoCleanupEnabled i && Lifecycle.isAvailable env (Lifecycle.base i) in
  let reloaded := Lifecycle.base_reloadModel env config parameter i in
  (registered = true → ok (Lifecycle.viewer env calls unregister) = false →
     Lifecycle.reloadModel env config parameter i calls
     = (Lifecycle.viewer env calls unregister, i, calls ++ [unregister]))
  ∧ (registered = true → ok (Lifecycle.viewer env calls unregister) = true →
     ok reloaded.1 = false →
     Lifecycle.reloadModel env config parameter i calls
     = (reloaded.1, reloaded.2, calls ++ [unregister]))
  ∧ (registered = false → ok reloaded.1 = false →
     Lifecycle.reloadModel env config parameter i calls
     = (reloaded.1, reloaded.2, calls))
  ∧ (ok (Lifecycle.reloadModel env config parameter i calls).1.1 = true →
     Lifecycle.autoCleanupEnabled
       (Lifecycle.reloadModel env config parameter i calls).1.2
     = Lifecycle.getIdleSequenceCleanup config
     ∧ (Lifecycle.reloadModel env config parameter i calls).2
       = calls ++ (if registered then [unregister] else [])
         ++ (if Lifecycle.getIdleSequenceCleanup config
             then [Lifecycle.registerForCleanup
                     (Lifecycle.instanceName env (Lifecycle.base reloaded.2))
                     (Lifecycle.instanceVersion env (Lifecycle.base reloaded.2))
                     (Lifecycle.sequenceManager reloaded.2)]
             else [])).
Proof.
  intros unregister registered reloaded.
  unfold Lifecycle.reloadModel. fold unregister registered reloaded.
  unfold Lifecycle.call. clearbody unregister registered reloaded.
  split_and!.
  - intros -> Hv. by rewrite Hv.
  - intros -> Hv Hr. rewrite Hv. simpl. destruct reloaded as [st j].
    simpl in *. by rewrite Hr.
  - intros -> Hr. simpl. destruct reloaded as [st j]. simpl in *. by rewrite Hr.
  - change (ok (status_of_code OK)) with true.
    destruct registered, reloaded as [st j]; cbn;
      repeat (match goal with
              | |- context [if negb (ok ?s) then _ else _] =>
                  destruct (ok s) eqn:?; cbn
              | |- context [if Lifecycle.getIdleSequenceCleanup ?c then _ else _] =>
                  destruct (Lifecycle.getIdleSequenceCleanup c); cbn
              end);
      try (intros; congruence); intros _;
      rewrite ?app_nil_r, <- ?app_assoc; done.
Qed.

(** X18: retiring an instance after [loadModel] always leaves it without
    sequence manager.  If the base class's load does not touch the cleanup
    flag, a permanent retire calls the viewer to unregister exactly when
    the configuration asked for cleanup, also when the load had failed
    and nothing was registered; a retire that is not permanent makes no
    call. *)
Theorem retire_after_load {Base Param : Type}
  (env : Lifecycle.Environment Base Param) (config : Lifecycle.ModelConfig)
  (i : Lifecycle.Instance Base) (calls : list Lifecycle.ViewerCall)
  (isPermanent : bool) :
  (∀ j, Lifecycle.autoCleanupEnabled (Lifecycle.base_loadModel env config j).2
        = Lifecycle.autoCleanupEnabled j) →
  Lifecycle.sequenceManager
    (Lifecycle.retireModel env isPermanent
       (Lifecycle.loadModel env config i calls).1.2
       (Lifecycle.loadModel env config i calls).2).1 = None
  ∧ (Lifecycle.retireModel env isPermanent
       (Lifecycle.loadModel env config i calls).1.2
       (Lifecycle.loadModel env config i calls).2).2
    = (Lifecycle.loadModel env config i calls).2
      ++ (if isPermanent && Lifecycle.getIdleSequenceCleanup config
          then [Lifecycle.unregisterFromCleanup
                  (Lifecycle.instanceName env
                     (Lifecycle.base (Lifecycle.loadModel env config i calls).1.2))
                  (Lifecycle.instanceVersion env
                     (Lifecycle.base (Lifecycle.loadModel env config i calls).1.2))]
          else [])
  ∧ (ok (Lifecycle.base_loadModel env config
           (Lifecycle.set_autoCleanupEnabled
              (Lifecycle.getIdleSequenceCleanup config) i)).1 = false →
     (Lifecycle.loadModel env config i calls).2 = calls).
Proof.
  intros Hkeep.
  destruct (loadModel_registration env config i calls)
    as (_ & Hfail & _ & _ & Hflag).
  destruct (Hflag Hkeep) as [Hf _].
  split_and!.
  - reflexivity.
  - unfold Lifecycle.retireModel. rewrite Hf. simpl.
    destruct (isPermanent && Lifecycle.getIdleSequenceCleanup config);
      [done | by rewrite app_nil_r].
  - intros Hno. by rewrite (Hfail Hno).
Qed.

(** Loading with cleanup configured registers the instance. *)
Lemma loadModel_registration_witness :
  (Lifecycle.loadModel env_ok config_cleanup instance0 []).2
  = [] ++ [Lifecycle.registerForCleanup "dummy" 1%Z
             (Some (Lifecycle.make_SequenceManager 10 "dummy" 1))].
Proof.
  apply (loadModel_registration env_ok config_cleanup instance0 []);
    reflexivity.
Defined.

(** Reloading a registered instance with cleanup configured. *)
Lemma reloadModel_unregisters_first_witness :
  (Lifecycle.reloadModel env_ok config_cleanup tt instance0 []).2
  = [] ++ [Lifecycle.unregisterFromCleanup "dummy" 1%Z]
       ++ [Lifecycle.registerForCleanup "dummy" 1%Z
             (Some (Lifecycle.make_SequenceManager 10 "dummy" 1))].
Proof.
  apply (reloadModel_unregisters_first env_ok config_cleanup tt instance0 []).
  reflexivity.
Defined.

(** A permanent retire after loading with cleanup configured. *)
Lemma retire_after_load_witness :
  Lifecycle.sequenceManager
    (Lifecycle.retireModel env_ok true
       (Lifecycle.loadModel env_ok config_cleanup instance0 []).1.2
       (Lifecycle.loadModel env_ok config_cleanup instance0 []).2).1
  = None.
Proof.
  apply (retire_after_load env_ok config_cleanup instance0 [] true).
  intros j. reflexivity.
Defined.

(** ** The counter checker of the metrics flow test *)

Lemma endpoints_eq :
  MetricFlow.endpoints =
  [("REST", "KServe", "ModelInfer", "ModelReady");
   ("REST", "KServe", "ModelMetadata", "ModelReady");
   ("REST", "KServe", "ModelReady", "ModelReady");
   ("REST", "TensorFlowServing", "GetModelMetadata", "GetModelStatus");
   ("REST", "TensorFlowServing", "GetModelStatus", "GetModelStatus");
   ("REST", "TensorFlowServing", "Predict", "GetModelStatus");
   ("gRPC", "KServe", "ModelInfer", "ModelReady");
   ("gRPC", "KServe", "ModelMetadata", "ModelReady");
   ("gRPC", "KServe", "ModelReady", "ModelReady");
   ("gRPC", "TensorFlowServing", "GetModelMetadata", "GetModelStatus");
   ("gRPC", "TensorFlowServing", "GetModelStatus", "GetModelStatus");
   ("gRPC", "TensorFlowServing", "Predict", "GetModelStatus")].
Proof. vm_compute. reflexivity. Qed.

Lemma for_each_Passed {A} (l : list A) (body : A → MetricFlow.Outcome) :
  MetricFlow.for_each l body = MetricFlow.Passed
  ↔ Forall (λ x, body x = MetricFlow.Passed) l.
Proof.
  induction l as [|x l IH]; simpl.
  - split; [constructor | done].
  - rewrite Forall_cons, <- IH.
    destruct (body x); (split; [intros H | intros [H1 H]]); done.
Qed.

Lemma for_each_ext {A} (l : list A) (f g : A → MetricFlow.Outcome) :
  Forall (λ x, f x = g x) l →
  MetricFlow.for_each l f = MetricFlow.for_each l g.
Proof.
  induction 1 as [|x l Hx _ IH]; simpl; [done|]. by rewrite Hx, IH.
Qed.

(** The loops of the checker in the order the sets are iterated. *)
Lemma checkRequestsCounter_loops
  (collectedMetricData metricName endpointName : string)
  (endpointVersion : option Z) (interfaceName method api : string) (value : Z) :
  MetricFlow.checkRequestsCounter collectedMetricData metricName endpointName
    endpointVersion interfaceName method api value
  = MetricFlow.for_each ["REST"; "gRPC"] (λ _interface,
      MetricFlow.for_each ["KServe"; "TensorFlowServing"] (λ _api,
        if String.eqb _api "KServe" then
          MetricFlow.for_each ["ModelInfer"; "ModelMetadata"; "ModelReady"]
            (λ _method,
               MetricFlow.expectation collectedMetricData metricName
                 endpointName endpointVersion interfaceName method api value
                 "ModelReady" _interface _api _method)
        else
          MetricFlow.for_each ["GetModelMetadata"; "GetModelStatus"; "Predict"]
            (λ _method,
               MetricFlow.expectation collectedMetricData metricName
                 endpointName endpointVersion interfaceName method api value
                 "GetModelStatus" _interface _api _method))).
Proof.
  unfold MetricFlow.checkRequestsCounter.
  replace (MetricFlow.std_set ["gRPC"; "REST"]) with ["REST"; "gRPC"]
    by (vm_compute; reflexivity).
  replace (MetricFlow.std_set ["TensorFlowServing"; "KServe"])
    with ["KServe"; "TensorFlowServing"] by (vm_compute; reflexivity).
  replace (MetricFlow.std_set ["ModelInfer"; "ModelMetadata"; "ModelReady"])
    with ["ModelInfer"; "ModelMetadata"; "ModelReady"]
    by (vm_compute; reflexivity).
  replace (MetricFlow.std_set ["Predict"; "GetModelMetadata"; "GetModelStatus"])
    with ["GetModelMetadata"; "GetModelStatus"; "Predict"]
    by (vm_compute; reflexivity).
  reflexivity.
Qed.

(** X19: called without a version ([std::nullopt]), the checker never
    completes and never reports a failed assertion: whatever the
    collected text and the other arguments, it throws, because the first
    counter it visits (REST, KServe, ModelInfer) carries a version. *)
Theorem checkRequestsCounter_without_version_throws
  (collectedMetricData metricName endpointName interfaceName method api : string)
  (value : Z) :
  MetricFlow.checkRequestsCounter collectedMetricData metricName endpointName
    None interfaceName method api value
  = MetricFlow.Threw.
Proof. rewrite checkRequestsCounter_loops. reflexivity. Qed.

Lemma expectation_value_unused data mn en ev iN m a value value' u _i _a _m :
  (String.eqb iN _i && String.eqb m _m && String.eqb a _a = false ∨ value = value') →
  MetricFlow.expectation data mn en ev iN m a value u _i _a _m
  = MetricFlow.expectation data mn en ev iN m a value' u _i _a _m.
Proof.
  unfold MetricFlow.expectation. intros [-> | ->]; reflexivity.
Qed.

(** X20: when the interface, api and method passed to the checker do not
    name one of the twelve counters it visits (a misspelt label, or a
    method of the other api), the expected value is never used: the
    outcome is the same for every [value], all counters being compared
    with 0. *)
Theorem checkRequestsCounter_unknown_counter
  (collectedMetricData metricName endpointName : string)
  (endpointVersion : option Z) (interfaceName method api : string)
  (value value' : Z) :
  (∀ unversioned,
     (interfaceName, api, method, unversioned) ∉ MetricFlow.endpoints) →
  MetricFlow.checkRequestsCounter collectedMetricData metricName endpointName
    endpointVersion interfaceName method api value
  = MetricFlow.checkRequestsCounter collectedMetricData metricName endpointName
      endpointVersion interfaceName method api value'.
Proof.
  intros Hunknown. rewrite !checkRequestsCounter_loops.
  assert (∀ u _i _a _m, (_i, _a, _m, u) ∈ MetricFlow.endpoints →
            String.eqb interfaceName _i && String.eqb method _m
            && String.eqb api _a = false) as Hcond.
  { intros u _i _a _m Hin.
    destruct (String.eqb_spec interfaceName _i) as [->|]; [|done].
    destruct (String.eqb_spec method _m) as [->|]; [|done].
    destruct (String.eqb_spec api _a) as [->|]; [|done].
    by destruct (Hunknown u). }
  rewrite endpoints_eq in Hcond.
  repeat first [ apply for_each_ext | apply List.Forall_cons | apply List.Forall_nil
               | progress cbn [String.eqb Ascii.eqb Bool.eqb] ].
  all: apply expectation_value_unused; left; eapply Hcond; in_list.
Qed.

(** The method Predict asked of the KServe api: no such counter. *)
Lemma checkRequestsCounter_unknown_counter_witness :
  MetricFlow.checkRequestsCounter "collected" "ovms_requests_success" "dummy"
    (Some 1%Z) "gRPC" "Predict" "KServe" 7%Z
  = MetricFlow.checkRequestsCounter "collected" "ovms_requests_success" "dummy"
      (Some 1%Z) "gRPC" "Predict" "KServe" 0%Z.
Proof.
  apply (checkRequestsCounter_unknown_counter "collected"
           "ovms_requests_success" "dummy" (Some 1%Z) "gRPC" "Predict" "KServe"
           7%Z 0%Z).
  intros unversioned Hin. rewrite endpoints_eq in Hin.
  repeat (apply elem_of_cons in Hin as [Hin|Hin]; [discriminate Hin|]).
  by apply elem_of_nil in Hin.
Defined.

Lemma prefix_spec (p t : string) :
  String.prefix p t = true ↔ ∃ after, t = p +:+ after.
Proof.
  revert t. induction p as [|c p IH]; intros t; simpl.
  - destruct t; simpl; (split; [intros _; by eexists | done]).
  - destruct t as [|d t]; simpl.
    + split; [done | by intros [? ?]].
    + destruct (Ascii.ascii_dec c d) as [->|Hne].
      * rewrite IH. split; intros [after Ha]; exists after.
        -- by rewrite Ha.
        -- by injection Ha.
      * split; [done | intros [after Ha]; injection Ha; congruence].
Qed.

Lemma has_substr_spec (needle text : string) :
  MetricFlow.has_substr needle text = true ↔ MetricFlow.occurs needle text.
Proof.
  unfold MetricFlow.occurs.
  induction text as [|c text IH]; cbn [MetricFlow.has_substr].
  - rewrite orb_false_r, prefix_spec. split.
    + intros [after Ha]. by exists EmptyString, after.
    + intros ([|? before] & after & Ha); [by exists after | discriminate Ha].
  - rewrite orb_true_iff, prefix_spec, IH. split.
    + intros [[after Ha] | (before & after & Ha)].
      * by exists EmptyString, after.
      * exists (String c before), after. simpl. by rewrite Ha.
    + intros ([|d before] & after & Ha); simpl in Ha.
      * left. by exists after.
      * right. exists before, after. by injection Ha.
Qed.

Lemma expectation_Passed data mn en v iN m a value u _i _a _m :
  MetricFlow.expectation data mn en (Some v) iN m a value u _i _a _m
  = MetricFlow.Passed
  ↔ MetricFlow.occurs
      (MetricFlow.counterLine mn _a _i _m en
         (if String.eqb _m u then None else Some v)
         (if String.eqb iN _i && String.eqb m _m && String.eqb a _a
          then value else 0%Z))
      data.
Proof.
  unfold MetricFlow.expectation. rewrite <- has_substr_spec.
  destruct (String.eqb _m u); simpl;
    destruct (MetricFlow.has_substr _ data); done.
Qed.

Lemma forall_endpoints (P : string → string → string → string → Prop)
  (l : list (string * string * string * string)) :
  (∀ i a m u, (i, a, m, u) ∈ l → P i a m u)
  ↔ Forall (λ x, P x.1.1.1 x.1.1.2 x.1.2 x.2) l.
Proof.
  rewrite Forall_forall. split.
  - intros H [[[i a] m] u] Hin. by apply H.
  - intros H i a m u Hin. by apply (H (i, a, m, u)).
Qed.

(** X21: given a version, the checker passes exactly when the collected
    text contains the line of each of the twelve counters (two
    interfaces, two apis, three methods each): with the version label
    except for ModelReady and GetModelStatus, with [value] on the counter
    named by the arguments and 0 on all the others. *)
Theorem checkRequestsCounter_passes_iff
  (collectedMetricData metricName endpointName : string) (version : Z)
  (interfaceName method api : string) (value : Z) :
  MetricFlow.checkRequestsCounter collectedMetricData metricName endpointName
    (Some version) interfaceName method api value
  = MetricFlow.Passed
  ↔ ∀ _interface _api _method unversioned,
      (_interface, _api, _method, unversioned) ∈ MetricFlow.endpoints →
      MetricFlow.occurs
        (MetricFlow.counterLine metricName _api _interface _method endpointName
           (if String.eqb _method unversioned then None else Some version)
           (if String.eqb interfaceName _interface && String.eqb method _method
               && String.eqb api _api
            then value else 0%Z))
        collectedMetricData.
Proof.
  rewrite forall_endpoints, endpoints_eq, checkRequestsCounter_loops.
  repeat (rewrite ?for_each_Passed, ?Forall_cons, ?Forall_nil;
          cbn beta; cbn [String.eqb Ascii.eqb Bool.eqb fst snd]).
  rewrite !expectation_Passed.
  cbn [String.eqb Ascii.eqb Bool.eqb].
  tauto.
Qed.
